(** * WorkflowStep: construction-time binding and lifecycle hooks

    A shallow embedding of [eensight/workflow/steps/_base.py].

    Python objects that the constructor can share with its caller (the
    [requires], [provides], [rebind] and [tags] dictionaries) live in a heap
    and are passed by reference, so that aliasing and the absence of mutation
    can be stated.  The instance under construction is its attribute
    dictionary [self.__dict__].  The constructor is a computation in a small
    state-and-exception monad. *)

From Stdlib Require Import Ascii.
From stdpp Require Import gmap strings list fin_maps.

(** ** Python values, objects and exceptions *)

(** Addresses of heap objects. *)
Abbreviation loc := nat (only parsing).

Section WorkflowStep.

(** The collaborators are opaque: the data catalog, the configuration object
    and the values of the [tags] dictionary ([Dict[str, Any]]). *)
Context {DataCatalog DictConfig Any : Type}.

(** What an instance attribute can hold. *)
Inductive value :=
| VNone
| VStr (s : string)
| VRef (l : loc)
| VCatalog (c : DataCatalog)
| VConfig (p : DictConfig).

(** Heap objects: the two kinds of dictionaries the constructor handles. *)
Inductive object :=
| StrDict (items : gmap string string)
| AnyDict (items : gmap string Any).

Inductive exn :=
| ValueError (msg : string)
| NotImplementedError (msg : string)
| TypeError (msg : string).

(** The class of an exception followed by its base classes, as Python's
    built-in hierarchy has them: an exception is of a kind [K] (is caught by
    [except K]) when [K] is in this list. *)
Definition exn_classes (e : exn) : list string :=
  match e with
  | ValueError _ => ["ValueError"; "Exception"; "BaseException"; "object"]
  | NotImplementedError _ =>
      ["NotImplementedError"; "RuntimeError"; "Exception"; "BaseException";
       "object"]
  | TypeError _ => ["TypeError"; "Exception"; "BaseException"; "object"]
  end.

(** Calls to the external collaborators, recorded in order. *)
Inductive effect :=
| CatalogLoad (dataset : string)
| CatalogSave (dataset : string)
| TrackingCall (uri : string) (run : string).

Record State := mkState {
  heap : list object;          (* allocated dictionaries, by address *)
  me : gmap string value;      (* self.__dict__ *)
  log : list effect            (* collaborator calls made so far *)
}.

(** ** The monad *)

(** [Fault] is a dangling or ill-typed reference; no Python program reaches
    it, and the theorems exclude it with [wf_args]. *)
Inductive outcome (A : Type) :=
| Return (a : A)
| Raise (e : exn)
| Fault.
Global Arguments Return {A} a.
Global Arguments Raise {A} e.
Global Arguments Fault {A}.

Definition M (A : Type) : Type := State → outcome A * State.

Definition ret {A} (a : A) : M A := λ s, (Return a, s).

Definition bind {A B} (m : M A) (k : A → M B) : M B := λ s,
  match m s with
  | (Return a, s') => k a s'
  | (Raise e, s') => (Raise e, s')
  | (Fault, s') => (Fault, s')
  end.

Definition raise {A} (e : exn) : M A := λ s, (Raise e, s).

Global Instance M_ret : MRet M := λ A, @ret A.
Global Instance M_bind : MBind M := λ A B k m, bind m k.

(** ** Heap and instance operations *)

(** A new object gets the next free address. *)
Definition alloc (o : object) : M loc := λ s,
  (Return (length (heap s)), mkState (heap s ++ [o]) (me s) (log s)).

(** Reading a [Dict[str, str]] through its reference. *)
Definition items (l : loc) : M (gmap string string) := λ s,
  match heap s !! l with
  | Some (StrDict d) => (Return d, s)
  | _ => (Fault, s)
  end.

(** [self.<name> = v] *)
Definition setattr (name : string) (v : value) : M unit := λ s,
  (Return tt, mkState (heap s) (<[name := v]> (me s)) (log s)).

(** ** Python expressions used by the constructor *)

(** [{val: val for val in names}]: the keys are inserted in list order. *)
Definition identity_dict (names : list string) : gmap string string :=
  foldl (λ d val, <[val := val]> d) ∅ names.

(** [{key: f'{val}_{ml_stage}' for key, val in d.items()}] *)
Definition suffixed (ml_stage : string) (d : gmap string string)
  : gmap string string :=
  (λ val, val +:+ "_" +:+ ml_stage) <$> d.

(** [bool(s)] for a [str]. *)
Definition truthy (s : string) : bool := negb (String.eqb s "").

(** [x] for a [str]-or-[None] argument stored in an attribute. *)
Definition of_opt (o : option string) : value :=
  match o with Some s => VStr s | None => VNone end.

(** [template.format(arg)] for a template with one [{}] field and no
    escaped braces. *)
Fixpoint format1 (template arg : string) : string :=
  match template with
  | String "{"%char (String "}"%char rest) => arg +:+ rest
  | String c rest => String c (format1 rest arg)
  | EmptyString => EmptyString
  end.

(** ** Step classes and constructor arguments *)

(** Bodies of the [execute] methods that subclasses define. A body runs
    with the base method at hand, which is what [super().execute()] calls. *)
Context {Body : Type} (run_body : Body → M unit → M unit).

(** The text of the interpreter's [TypeError] for a class that still has an
    abstract method, from the name of the class; it varies with the Python
    version. *)
Context (abc_message : string → string).

(** A step type: [WorkflowStep] itself or a subclass of it. *)
Record StepClass := mkStepClass {
  __name__ : string;
  default_requires : list string;
  default_provides : list string;
  own_execute : option Body      (* None: [execute] is not overridden *)
}.

(** The arguments of [__init__]; [None] is Python's [None]. *)
Record Args := mkArgs {
  catalog : DataCatalog;
  parameters : DictConfig;
  name : option string;
  requires : option loc;
  provides : option loc;
  ml_stage : option string;
  rebind : option loc;
  run_id : option string;
  tracking_uri : option string;
  experiment_name : option string;
  tags : option loc
}.

(** ** WorkflowStep *)

(** Each local of the Python function is rebound under its own name, as in
    the source; [requires a] is the argument, [requires] after the first
    binding is the local. *)
Definition __init__ (cls : StepClass) (a : Args) : M unit :=
  requires ←
    match requires a with
    | Some l =>
        d ← items l;
        if bool_decide (d = ∅)
        then alloc (StrDict (identity_dict (default_requires cls)))
        else ret l
    | None => alloc (StrDict (identity_dict (default_requires cls)))
    end;
  requires ←
    match ml_stage a with
    | Some stage =>
        if truthy stage
        then d ← items requires; alloc (StrDict (suffixed stage d))
        else ret requires
    | None => ret requires
    end;
  provides ←
    match provides a with
    | Some l =>
        d ← items l;
        if bool_decide (d = ∅)
        then alloc (StrDict (identity_dict (default_provides cls)))
        else ret l
    | None => alloc (StrDict (identity_dict (default_provides cls)))
    end;
  provides ←
    match ml_stage a with
    | Some stage =>
        if truthy stage
        then d ← items provides; alloc (StrDict (suffixed stage d))
        else ret provides
    | None => ret provides
    end;
  rebind ←
    match rebind a with
    | Some l => ret l
    | None => alloc (StrDict ∅)
    end;
  _ ←
    match run_id a, tracking_uri a with
    | Some _, None =>
        raise (ValueError
                 "If tracking is enabled, a `tracking_uri` must be provided")
    | _, _ => ret tt
    end;
  experiment_name ←
    ret match experiment_name a with
        | Some e => e
        | None => "Default"
        end;
  tags ←
    match tags a with
    | Some l => ret l
    | None => alloc (AnyDict ∅)
    end;
  setattr "catalog" (VCatalog (catalog a));;
  setattr "parameters" (VConfig (parameters a));;
  setattr "name" (of_opt (name a));;
  setattr "requires" (VRef requires);;
  setattr "provides" (VRef provides);;
  setattr "ml_stage" (of_opt (ml_stage a));;
  setattr "rebind" (VRef rebind);;
  setattr "run_id" (of_opt (run_id a));;
  setattr "tracking_uri" (of_opt (tracking_uri a));;
  setattr "experiment_name" (VStr experiment_name);;
  setattr "tags" (VRef tags).

Definition pre_execute : M unit := ret tt.

(** The body of the base method, an [abc.abstractmethod]; [cls] is
    [self.__class__]. *)
Definition execute (cls : StepClass) : M unit :=
  raise (NotImplementedError
           (format1 ("`{}` is a subclass of WorkflowStep and" +:+
                     "it must implement the `execute` method")
                    (__name__ cls))).

Definition post_execute : M unit := ret tt.

(** [cls(catalog, parameters, ...)]. [WorkflowStep] derives from [abc.ABC]
    and [execute] is an [abc.abstractmethod] (lines 14 and 102): a class
    that does not override [execute] still has an abstract method, and
    Python refuses to instantiate it, raising [TypeError] before [__init__]
    runs. *)
Definition instantiate (cls : StepClass) (a : Args) : M unit :=
  match own_execute cls with
  | Some _ => __init__ cls a
  | None => raise (TypeError (abc_message (__name__ cls)))
  end.

(** [cls(catalog, parameters, ...).execute()]: the method that runs is the
    one the class defines, with the base method within its reach; a class
    that defines none has no instance to call it on. *)
Definition construct_and_execute (cls : StepClass) (a : Args) : M unit :=
  match own_execute cls with
  | Some body => instantiate cls a;; run_body body (execute cls)
  | None => instantiate cls a
  end.

(** ** Observations *)

Definition dict_at (s : State) (l : loc) : option (gmap string string) :=
  match heap s !! l with Some (StrDict d) => Some d | _ => None end.

Definition tags_at (s : State) (l : loc) : option (gmap string Any) :=
  match heap s !! l with Some (AnyDict d) => Some d | _ => None end.

(** The dictionary an attribute refers to. *)
Definition attr_dict (s : State) (k : string)
  : option (gmap string string) :=
  match me s !! k with Some (VRef l) => dict_at s l | _ => None end.

Definition attr_tags (s : State) (k : string) : option (gmap string Any) :=
  match me s !! k with Some (VRef l) => tags_at s l | _ => None end.

(** An attribute as a caller sees it, references followed. *)
Inductive snapshot :=
| SNone
| SStr (v : string)
| SDict (d : gmap string string)
| STags (d : gmap string Any)
| SCatalog (c : DataCatalog)
| SConfig (p : DictConfig)
| SDangling.

Definition observe (s : State) (v : value) : snapshot :=
  match v with
  | VNone => SNone
  | VStr x => SStr x
  | VRef l =>
      match heap s !! l with
      | Some (StrDict d) => SDict d
      | Some (AnyDict d) => STags d
      | None => SDangling
      end
  | VCatalog c => SCatalog c
  | VConfig p => SConfig p
  end.

Definition attributes (s : State) : gmap string snapshot :=
  observe s <$> me s.

(** ** Well-formed calls *)

Definition is_str_dict (s : State) (o : option loc) : bool :=
  match o with
  | Some l => match heap s !! l with Some (StrDict _) => true | _ => false end
  | None => true
  end.

Definition is_any_dict (s : State) (o : option loc) : bool :=
  match o with
  | Some l => match heap s !! l with Some (AnyDict _) => true | _ => false end
  | None => true
  end.

(** Every dictionary argument refers to a live dictionary of its type. *)
Definition wf_args (s : State) (a : Args) : bool :=
  is_str_dict s (requires a) && is_str_dict s (provides a) &&
  is_str_dict s (rebind a) && is_any_dict s (tags a).

(** The guard of line 78, negated. *)
Definition tracking_ok (a : Args) : bool :=
  match run_id a, tracking_uri a with
  | Some _, None => false
  | _, _ => true
  end.

(** ** The constructor, step by step *)

(** The pieces of [__init__] that the proofs follow one at a time;
    [init_steps] below shows that chaining them is [__init__] itself. *)

(** Lines 66-67 and 71-72. *)
Definition default_step (defaults : list string) (given : option loc)
  : M loc :=
  match given with
  | Some l =>
      d ← items l;
      if bool_decide (d = ∅)
      then alloc (StrDict (identity_dict defaults))
      else ret l
  | None => alloc (StrDict (identity_dict defaults))
  end.

(** Lines 68-69 and 73-74. *)
Definition stage_step (stage : option string) (r : loc) : M loc :=
  match stage with
  | Some st =>
      if truthy st
      then d ← items r; alloc (StrDict (suffixed st d))
      else ret r
  | None => ret r
  end.

(** Lines 84-94. *)
Definition stored (a : Args) (lr lp lb : loc) (e : string) (lt : loc)
    (d : gmap string value) : gmap string value :=
  <["tags" := VRef lt]>
  (<["experiment_name" := VStr e]>
  (<["tracking_uri" := of_opt (tracking_uri a)]>
  (<["run_id" := of_opt (run_id a)]>
  (<["rebind" := VRef lb]>
  (<["ml_stage" := of_opt (ml_stage a)]>
  (<["provides" := VRef lp]>
  (<["requires" := VRef lr]>
  (<["name" := of_opt (name a)]>
  (<["parameters" := VConfig (parameters a)]>
  (<["catalog" := VCatalog (catalog a)]> d)))))))))).

Definition store (a : Args) (lr lp lb : loc) (e : string) (lt : loc)
  : M unit :=
  λ s, (Return tt, mkState (heap s) (stored a lr lp lb e lt (me s)) (log s)).

(** What a step may do to the state: allocate, and nothing else. *)
Definition grows (s s' : State) : Prop :=
  heap s `prefix_of` heap s' ∧ me s' = me s ∧ log s' = log s.

(** The mapping a side starts from, and what the stage makes of it. *)
Definition chosen (defaults : list string)
    (given : option (gmap string string)) : gmap string string :=
  match given with
  | Some d => if bool_decide (d = ∅) then identity_dict defaults else d
  | None => identity_dict defaults
  end.

Definition suffixing (stage : option string) : bool :=
  match stage with Some st => truthy st | None => false end.

Definition staged (stage : option string) (d : gmap string string)
  : gmap string string :=
  match stage with
  | Some st => if truthy st then suffixed st d else d
  | None => d
  end.

(** ** Observable attributes of a constructed instance *)

(** A [str]-or-[None] attribute as a caller sees it. *)
Definition snapshot_of (o : option string) : snapshot :=
  match o with Some x => SStr x | None => SNone end.

(** The attributes of a fresh instance after a successful construction, as
    a function of the argument values alone. *)
Definition expected (cls : StepClass) (c : DataCatalog) (p : DictConfig)
    (n : option string) (r q : option (gmap string string))
    (st : option string) (b : option (gmap string string))
    (rid uri en : option string) (t : option (gmap string Any))
  : gmap string snapshot :=
  <["tags" := STags (default ∅ t)]>
  (<["experiment_name" :=
       SStr match en with Some e => e | None => "Default" end]>
  (<["tracking_uri" := snapshot_of uri]>
  (<["run_id" := snapshot_of rid]>
  (<["rebind" := SDict (default ∅ b)]>
  (<["ml_stage" := snapshot_of st]>
  (<["provides" := SDict (staged st (chosen (default_provides cls) q))]>
  (<["requires" := SDict (staged st (chosen (default_requires cls) r))]>
  (<["name" := snapshot_of n]>
  (<["parameters" := SConfig p]>
  (<["catalog" := SCatalog c]> ∅)))))))))).

(** Two calls receive the same inputs when their arguments agree as values:
    the dictionaries may sit at different addresses of different heaps. *)
Definition same_inputs (s1 : State) (a1 : Args) (s2 : State) (a2 : Args)
  : Prop :=
  catalog a1 = catalog a2 ∧ parameters a1 = parameters a2 ∧
  name a1 = name a2 ∧
  requires a1 ≫= dict_at s1 = requires a2 ≫= dict_at s2 ∧
  provides a1 ≫= dict_at s1 = provides a2 ≫= dict_at s2 ∧
  ml_stage a1 = ml_stage a2 ∧
  rebind a1 ≫= dict_at s1 = rebind a2 ≫= dict_at s2 ∧
  run_id a1 = run_id a2 ∧ tracking_uri a1 = tracking_uri a2 ∧
  experiment_name a1 = experiment_name a2 ∧
  tags a1 ≫= tags_at s1 = tags a2 ≫= tags_at s2.

(** The attributes assigned by lines 84-94. *)
Definition attribute_names : list string :=
  ["catalog"; "parameters"; "name"; "requires"; "provides"; "ml_stage";
   "rebind"; "run_id"; "tracking_uri"; "experiment_name"; "tags"].

End WorkflowStep.

(** ** Concrete calls *)

(** The step type of the scenarios: one default input, one default output,
    [execute] inherited. The catalog is named by a string, the configuration
    is trivial and tag values are numbers. *)
Definition CleanStep : @StepClass unit :=
  mkStepClass "CleanStep" ["meter_data"] ["clean_data"] None.

(** A caller's heap: a non-empty [Dict[str, str]], an empty one, a tags
    dictionary and a column renaming; the instance is fresh. *)
Definition caller : @State string unit nat :=
  mkState [StrDict {["raw" := "sensor_feed"]};
           StrDict ∅;
           AnyDict {["owner" := 7]};
           StrDict {["ts" := "timestamp"]}]
          ∅ [].

(** The same dictionaries at other addresses. *)
Definition caller' : @State string unit nat :=
  mkState [AnyDict {["owner" := 7]};
           StrDict {["ts" := "timestamp"]};
           StrDict {["unrelated" := "entry"]};
           StrDict {["raw" := "sensor_feed"]}]
          ∅ [CatalogLoad "earlier"].

(** [CleanStep(catalog, parameters)] *)
Definition plain_call : @Args string unit :=
  mkArgs "catalog" tt None None None None None None None None None.

(** [CleanStep(catalog, parameters, requires={"raw": "sensor_feed"},
    ml_stage="val")] *)
Definition val_call : @Args string unit :=
  mkArgs "catalog" tt None (Some 0) None (Some "val") None None None None None.

(** [CleanStep(catalog, parameters, requires={}, provides={})] *)
Definition empty_override_call : @Args string unit :=
  mkArgs "catalog" tt None (Some 1) (Some 1) None None None None None None.

(** [CleanStep(catalog, parameters, requires={"raw": "sensor_feed"},
    provides={}, ml_stage="")] *)
Definition empty_stage_call : @Args string unit :=
  mkArgs "catalog" tt None (Some 0) (Some 1) (Some "") None None None None None.

(** [CleanStep(catalog, parameters, run_id="")] *)
Definition untracked_run_call : @Args string unit :=
  mkArgs "catalog" tt None None None None None (Some "") None None None.

(** [CleanStep(catalog, parameters, name="clean",
    requires={"raw": "sensor_feed"}, rebind={"ts": "timestamp"},
    run_id="abc", tracking_uri="http://localhost:5000",
    experiment_name="exp", tags={"owner": 7})] at the addresses of
    [caller] and of [caller']. *)
Definition tracked_call : @Args string unit :=
  mkArgs "catalog" tt (Some "clean") (Some 0) None None (Some 3)
         (Some "abc") (Some "http://localhost:5000") (Some "exp") (Some 2).

Definition tracked_call' : @Args string unit :=
  mkArgs "catalog" tt (Some "clean") (Some 3) None None (Some 1)
         (Some "abc") (Some "http://localhost:5000") (Some "exp") (Some 0).

(** [CleanStep(catalog, parameters, requires={"raw": "sensor_feed"},
    provides={"ts": "timestamp"}, rebind={"ts": "timestamp"},
    tags={"owner": 7})]: every dictionary supplied, [provides] and [rebind]
    being one object. *)
Definition full_call : @Args string unit :=
  mkArgs "catalog" tt None (Some 0) (Some 3) None (Some 3) None None None
         (Some 2).

(** [val_call] for the test stage. *)
Definition test_call : @Args string unit :=
  mkArgs "catalog" tt None (Some 0) None (Some "test") None None None None
         None.

(** The heap after [val_call], seen by a second, fresh instance. *)
Definition after_val_call : @State string unit nat :=
  mkState (heap (snd (__init__ CleanStep val_call caller))) ∅ [].

(** [CleanStep(catalog, parameters, requires=first.requires,
    provides=first.provides)] and the same with [ml_stage="test"], where
    [first] is the instance built by [val_call]. *)
Definition rebuild_call : @Args string unit :=
  mkArgs "catalog" tt None (Some 4) (Some 6) None None None None None None.

Definition restage_call : @Args string unit :=
  mkArgs "catalog" tt None (Some 4) (Some 6) (Some "test") None None None
         None None.

(** Two step types that declare the same default names, in another order
    and with a repetition. *)
Definition JoinStep : @StepClass unit :=
  mkStepClass "JoinStep" ["left"; "right"] ["joined"] None.

Definition JoinStep' : @StepClass unit :=
  mkStepClass "JoinStep" ["right"; "left"; "right"] ["joined"; "joined"] None.

(** A step type whose [execute] is [return super().execute()], the body
    that only delegates, and the interpreter's message in the wording of
    CPython 3.9 to 3.11. *)
Definition DelegatingStep : @StepClass unit :=
  mkStepClass "DelegatingStep" ["meter_data"] ["clean_data"] (Some tt).

Definition delegate (body : unit) (base : @M string unit nat unit)
  : @M string unit nat unit := base.

Definition cpython_message (name : string) : string :=
  "Can't instantiate abstract class " +:+ name +:+
  " with abstract method execute".

(** * Proofs *)

Section Correctness.

Context {DataCatalog DictConfig Any Body : Type}.

Local Abbreviation State := (@State DataCatalog DictConfig Any).
Local Abbreviation Args := (@Args DataCatalog DictConfig).
Local Abbreviation StepClass := (@StepClass Body).
Local Abbreviation M := (@M DataCatalog DictConfig Any).

Implicit Types (s : State) (a : Args) (cls : StepClass).

Lemma init_steps (cls : StepClass) (a : Args) :
  __init__ cls a =
    (lr ← default_step (default_requires cls) (requires a);
     lr ← stage_step (ml_stage a) lr;
     lp ← default_step (default_provides cls) (provides a);
     lp ← stage_step (ml_stage a) lp;
     lb ← match rebind a with
          | Some l => ret l
          | None => alloc (StrDict ∅)
          end;
     _ ← match run_id a, tracking_uri a with
         | Some _, None =>
             raise (ValueError
               "If tracking is enabled, a `tracking_uri` must be provided")
         | _, _ => (ret tt : M unit)
         end;
     e ← ret match experiment_name a with
             | Some e => e
             | None => "Default"
             end;
     lt ← match tags a with
          | Some l => ret l
          | None => alloc (AnyDict ∅)
          end;
     store a lr lp lb e lt).
Proof. reflexivity. Qed.

Lemma grows_refl s : grows s s.
Proof. by repeat split. Qed.

Lemma grows_trans s1 s2 s3 : grows s1 s2 → grows s2 s3 → grows s1 s3.
Proof.
  intros (Hh & Hm & Hl) (Hh' & Hm' & Hl'). repeat split.
  - by etrans.
  - congruence.
  - congruence.
Qed.

Lemma grows_lookup s s' l o :
  grows s s' → heap s !! l = Some o → heap s' !! l = Some o.
Proof. intros (Hh & _) Hl. by eapply prefix_lookup_Some. Qed.

Lemma dict_at_grows s s' l d :
  grows s s' → dict_at s l = Some d → dict_at s' l = Some d.
Proof.
  unfold dict_at. intros Hg Hd.
  destruct (heap s !! l) as [o|] eqn:E; [|done].
  by rewrite (grows_lookup _ _ _ _ Hg E).
Qed.

Lemma tags_at_grows s s' l d :
  grows s s' → tags_at s l = Some d → tags_at s' l = Some d.
Proof.
  unfold tags_at. intros Hg Hd.
  destruct (heap s !! l) as [o|] eqn:E; [|done].
  by rewrite (grows_lookup _ _ _ _ Hg E).
Qed.

Lemma alloc_spec o s :
  ∃ s', alloc o s = (Return (length (heap s)), s') ∧ grows s s' ∧
        heap s' !! length (heap s) = Some o.
Proof.
  eexists. split; [reflexivity|]. split.
  - repeat split; simpl. by apply prefix_app_r.
  - simpl. by rewrite list_lookup_middle.
Qed.

Lemma items_spec s l d :
  dict_at s l = Some d → items l s = (Return d, s).
Proof.
  unfold dict_at, items. destruct (heap s !! l) as [[]|]; naive_solver.
Qed.

Lemma bind_return {A B} (m : M A) (k : A → M B) s x s' :
  m s = (Return x, s') → (m ≫= k) s = k x s'.
Proof. unfold mbind, M_bind, bind. by intros ->. Qed.

Lemma bind_ret {A B} (x : A) (k : A → M B) s : (ret x ≫= k) s = k x s.
Proof. reflexivity. Qed.

Lemma default_step_spec defaults given s :
  is_str_dict s given = true →
  ∃ l s', default_step defaults given s = (Return l, s') ∧ grows s s' ∧
          dict_at s' l = Some (chosen defaults (given ≫= dict_at s)) ∧
          (∀ l0 d, given = Some l0 → dict_at s l0 = Some d → d ≠ ∅ →
                   l = l0).
Proof.
  intros Hwf. destruct given as [l0|]; simpl in *.
  - destruct (dict_at s l0) as [d|] eqn:Hd.
    + unfold default_step. rewrite (bind_return _ _ _ _ _ (items_spec _ _ _ Hd)).
      simpl. case_bool_decide as He.
      * destruct (alloc_spec (StrDict (identity_dict defaults)) s)
          as (s' & -> & Hg & Hl).
        do 2 eexists. split; [done|]. split; [done|]. split.
        -- unfold dict_at. by rewrite Hl.
        -- intros ? ? [= <-]. congruence.
      * exists l0, s. split; [done|]. split; [apply grows_refl|].
        split; [done|]. by intros ? ? [= <-].
    + unfold dict_at in Hd. by destruct (heap s !! l0) as [[]|].
  - unfold default_step.
    destruct (alloc_spec (StrDict (identity_dict defaults)) s)
      as (s' & -> & Hg & Hl).
    do 2 eexists. split; [done|]. split; [done|]. split.
    + unfold dict_at. by rewrite Hl.
    + done.
Qed.

Lemma stage_step_spec stage r s d :
  dict_at s r = Some d →
  ∃ l s', stage_step stage r s = (Return l, s') ∧ grows s s' ∧
          dict_at s' l = Some (staged stage d) ∧
          (suffixing stage = false → l = r).
Proof.
  intros Hd. unfold stage_step, staged, suffixing.
  destruct stage as [st|]; [destruct (truthy st)|].
  - rewrite (bind_return _ _ _ _ _ (items_spec _ _ _ Hd)).
    destruct (alloc_spec (StrDict (suffixed st d)) s) as (s' & -> & Hg & Hl).
    do 2 eexists. split; [done|]. split; [done|]. split; [|done].
    unfold dict_at. by rewrite Hl.
  - exists r, s. by split; [|split; [apply grows_refl|]].
  - exists r, s. by split; [|split; [apply grows_refl|]].
Qed.

Lemma is_str_dict_grows s s' o :
  grows s s' → is_str_dict s o = true →
  is_str_dict s' o = true ∧ o ≫= dict_at s' = o ≫= dict_at s.
Proof.
  intros Hg. destruct o as [l|]; simpl; [|done].
  destruct (heap s !! l) as [[d|]|] eqn:E; try done. intros _.
  unfold dict_at. by rewrite (grows_lookup _ _ _ _ Hg E), E.
Qed.

Lemma is_any_dict_grows s s' o :
  grows s s' → is_any_dict s o = true →
  is_any_dict s' o = true ∧ o ≫= tags_at s' = o ≫= tags_at s.
Proof.
  intros Hg. destruct o as [l|]; simpl; [|done].
  destruct (heap s !! l) as [[|d]|] eqn:E; try done. intros _.
  unfold tags_at. by rewrite (grows_lookup _ _ _ _ Hg E), E.
Qed.

(** Line 76, and line 82 with [AnyDict]. *)
Lemma rebind_step_spec s o :
  is_str_dict s o = true →
  ∃ l s', match o with Some l => ret l | None => alloc (StrDict ∅) end s
            = (Return l, s') ∧ grows s s' ∧
          dict_at s' l = Some (default ∅ (o ≫= dict_at s)) ∧
          (∀ l0, o = Some l0 → l = l0).
Proof.
  destruct o as [l0|]; simpl.
  - destruct (heap s !! l0) as [[d|]|] eqn:E; try done. intros _.
    exists l0, s. split; [done|]. split; [apply grows_refl|].
    unfold dict_at. rewrite E. split; [done|]. by intros ? [= <-].
  - intros _. destruct (alloc_spec (StrDict ∅) s) as (s' & -> & Hg & Hl).
    do 2 eexists. split; [done|]. split; [done|].
    unfold dict_at. by rewrite Hl.
Qed.

Lemma tags_step_spec s o :
  is_any_dict s o = true →
  ∃ l s', match o with Some l => ret l | None => alloc (AnyDict ∅) end s
            = (Return l, s') ∧ grows s s' ∧
          tags_at s' l = Some (default ∅ (o ≫= tags_at s)) ∧
          (∀ l0, o = Some l0 → l = l0).
Proof.
  destruct o as [l0|]; simpl.
  - destruct (heap s !! l0) as [[|d]|] eqn:E; try done. intros _.
    exists l0, s. split; [done|]. split; [apply grows_refl|].
    unfold tags_at. rewrite E. split; [done|]. by intros ? [= <-].
  - intros _. destruct (alloc_spec (AnyDict ∅) s) as (s' & -> & Hg & Hl).
    do 2 eexists. split; [done|]. split; [done|].
    unfold tags_at. by rewrite Hl.
Qed.

(** Lines 66-76: the state that reaches the tracking check. *)
Lemma init_prefix_spec (cls : StepClass) (a : Args) s :
  wf_args s a = true →
  ∃ lr lp lb s',
    (∀ B (k : loc → loc → loc → M B),
       (lr ← default_step (default_requires cls) (requires a);
        lr ← stage_step (ml_stage a) lr;
        lp ← default_step (default_provides cls) (provides a);
        lp ← stage_step (ml_stage a) lp;
        lb ← match rebind a with
             | Some l => ret l
             | None => alloc (StrDict ∅)
             end;
        k lr lp lb) s = k lr lp lb s') ∧
    grows s s' ∧
    dict_at s' lr =
      Some (staged (ml_stage a)
              (chosen (default_requires cls) (requires a ≫= dict_at s))) ∧
    dict_at s' lp =
      Some (staged (ml_stage a)
              (chosen (default_provides cls) (provides a ≫= dict_at s))) ∧
    dict_at s' lb = Some (default ∅ (rebind a ≫= dict_at s)) ∧
    (∀ l, rebind a = Some l → lb = l) ∧
    (suffixing (ml_stage a) = false →
     ∀ l d, requires a = Some l → dict_at s l = Some d → d ≠ ∅ → lr = l) ∧
    (suffixing (ml_stage a) = false →
     ∀ l d, provides a = Some l → dict_at s l = Some d → d ≠ ∅ → lp = l).
Proof.
  unfold wf_args. intros Hwf.
  apply andb_prop in Hwf as [Hwf Wt].
  apply andb_prop in Hwf as [Hwf Wb].
  apply andb_prop in Hwf as [Wr Wp].
  destruct (default_step_spec (default_requires cls) _ _ Wr)
    as (l1 & s1 & E1 & G1 & D1 & A1).
  destruct (stage_step_spec (ml_stage a) _ _ _ D1)
    as (l2 & s2 & E2 & G2 & D2 & A2).
  pose proof (grows_trans _ _ _ G1 G2) as G02.
  destruct (is_str_dict_grows _ _ _ G02 Wp) as [Wp2 Qp].
  destruct (default_step_spec (default_provides cls) _ _ Wp2)
    as (l3 & s3 & E3 & G3 & D3 & A3).
  destruct (stage_step_spec (ml_stage a) _ _ _ D3)
    as (l4 & s4 & E4 & G4 & D4 & A4).
  pose proof (grows_trans _ _ _ G3 G4) as G24.
  pose proof (grows_trans _ _ _ G02 G24) as G04.
  destruct (is_str_dict_grows _ _ _ G04 Wb) as [Wb4 Qb].
  destruct (rebind_step_spec _ _ Wb4) as (l5 & s5 & E5 & G5 & D5 & A5).
  exists l2, l4, l5, s5.
  split.
  { intros B k.
    by rewrite (bind_return _ _ _ _ _ E1), (bind_return _ _ _ _ _ E2),
      (bind_return _ _ _ _ _ E3), (bind_return _ _ _ _ _ E4),
      (bind_return _ _ _ _ _ E5). }
  split; [by eapply grows_trans|].
  split; [eapply dict_at_grows; [|exact D2]; by eapply grows_trans|].
  split; [rewrite <- Qp; by eapply dict_at_grows|].
  split; [by rewrite <- Qb|]. split; [done|]. split.
  - intros Hs l d Hl Hd Hne. rewrite (A2 Hs). by eapply A1.
  - intros Hs l d Hl Hd Hne. rewrite (A4 Hs). eapply A3; [done| |done].
    by eapply dict_at_grows.
Qed.

(** The constructor as a whole: its outcome, the attributes it stores, the
    dictionaries they refer to, and what it leaves alone. *)
Lemma init_spec (cls : StepClass) (a : Args) s :
  wf_args s a = true →
  ∃ lr lp lb lt s',
    __init__ cls a s =
      (if tracking_ok a then Return tt
       else Raise (ValueError
              "If tracking is enabled, a `tracking_uri` must be provided"),
       s') ∧
    heap s `prefix_of` heap s' ∧
    log s' = log s ∧
    me s' =
      (if tracking_ok a
       then stored a lr lp lb
              match experiment_name a with Some e => e | None => "Default" end
              lt (me s)
       else me s) ∧
    dict_at s' lr =
      Some (staged (ml_stage a)
              (chosen (default_requires cls) (requires a ≫= dict_at s))) ∧
    dict_at s' lp =
      Some (staged (ml_stage a)
              (chosen (default_provides cls) (provides a ≫= dict_at s))) ∧
    dict_at s' lb = Some (default ∅ (rebind a ≫= dict_at s)) ∧
    (tracking_ok a = true →
     tags_at s' lt = Some (default ∅ (tags a ≫= tags_at s))) ∧
    (∀ l, rebind a = Some l → lb = l) ∧
    (∀ l, tags a = Some l → lt = l) ∧
    (suffixing (ml_stage a) = false →
     ∀ l d, requires a = Some l → dict_at s l = Some d → d ≠ ∅ → lr = l) ∧
    (suffixing (ml_stage a) = false →
     ∀ l d, provides a = Some l → dict_at s l = Some d → d ≠ ∅ → lp = l).
Proof.
  intros Hwf.
  destruct (init_prefix_spec cls a s Hwf)
    as (lr & lp & lb & s1 & Hk & G1 & Dr & Dp & Db & Ab & Ar & Ap).
  assert (is_any_dict s (tags a) = true) as Wt.
  { unfold wf_args in Hwf. by apply andb_prop in Hwf as [_ ?]. }
  destruct (is_any_dict_grows _ _ _ G1 Wt) as [Wt1 Qt].
  destruct (tags_step_spec _ _ Wt1) as (lt & s2 & E2 & G2 & Dt & At).
  rewrite init_steps, Hk. unfold tracking_ok.
  destruct (run_id a) as [r|], (tracking_uri a) as [u|]; simpl.
  2: { exists lr, lp, lb, (default 0 (tags a)), s1. destruct G1 as (? & ? & ?).
       repeat split; try done. by intros ? ->. }
  all: rewrite !bind_ret, (bind_return _ _ _ _ _ E2).
  all: exists lr, lp, lb, lt, (mkState (heap s2)
         (stored a lr lp lb
            match experiment_name a with Some e => e | None => "Default" end
            lt (me s2)) (log s2)).
  all: pose proof (grows_trans _ _ _ G1 G2) as G.
  all: destruct G as (Gh & Gm & Gl), G2 as (G2h & G2m & G2l).
  all: split; [done|]; split; [done|]; split; [done|].
  all: split; [simpl; by rewrite Gm|].
  all: unfold dict_at, tags_at in *; simpl.
  all: split; [by eapply (dict_at_grows s1 s2); [repeat split|]|].
  all: split; [by eapply (dict_at_grows s1 s2); [repeat split|]|].
  all: split; [by eapply (dict_at_grows s1 s2); [repeat split|]|].
  all: split; [by rewrite <- Qt|]; done.
Qed.

(** ** The two dictionary expressions *)

Lemma identity_dict_lookup_from (names : list string) (d : gmap string string) k :
  foldl (λ d val, <[val := val]> d) d names !! k =
    if bool_decide (k ∈ names) then Some k else d !! k.
Proof.
  revert d. induction names as [|x names IH]; intros d.
  - case_bool_decide as H; [|done]. by apply elem_of_nil in H.
  - change (foldl (λ d val, <[val := val]> d) (<[x := x]> d) names !! k =
            if bool_decide (k ∈ x :: names) then Some k else d !! k).
    rewrite IH. case_bool_decide as Hn; case_bool_decide as Hc; try done.
    + exfalso. set_solver.
    + destruct (decide (k = x)) as [->|Hne].
      * by rewrite lookup_insert_eq.
      * exfalso. by apply elem_of_cons in Hc as [?|?].
    + rewrite lookup_insert_ne; [done|]. intros ->. set_solver.
Qed.

Lemma identity_dict_lookup names k v :
  identity_dict names !! k = Some v ↔ k ∈ names ∧ v = k.
Proof.
  unfold identity_dict. rewrite identity_dict_lookup_from, lookup_empty.
  case_bool_decide; split; try done.
  - by intros [= ->].
  - by intros [_ ->].
  - by intros [? _].
Qed.

Lemma identity_dict_dom names : dom (identity_dict names) = list_to_set names.
Proof.
  apply set_eq. intros k. rewrite elem_of_dom, elem_of_list_to_set.
  split.
  - intros [v Hv]. by apply identity_dict_lookup in Hv as [? _].
  - intros Hk. exists k. by apply identity_dict_lookup.
Qed.

Lemma suffixed_lookup st (d : gmap string string) k :
  suffixed st d !! k = (λ v, v +:+ "_" +:+ st) <$> d !! k.
Proof. apply lookup_fmap. Qed.

Lemma suffixed_identity_lookup st names k v :
  suffixed st (identity_dict names) !! k = Some v ↔
  k ∈ names ∧ v = k +:+ "_" +:+ st.
Proof.
  rewrite suffixed_lookup, fmap_Some. split.
  - intros (x & Hx & ->). by apply identity_dict_lookup in Hx as [? ->].
  - intros [Hk ->]. exists k. split; [|done]. by apply identity_dict_lookup.
Qed.

Lemma truthy_nonempty st : st ≠ "" → truthy st = true.
Proof. unfold truthy. by intros ->%String.eqb_neq. Qed.

(** ** The stored attributes *)

Lemma stored_lookup a lr lp lb e lt d :
  let m := stored a lr lp lb e lt d in
  m !! "catalog" = Some (VCatalog (catalog a)) ∧
  m !! "parameters" = Some (VConfig (parameters a)) ∧
  m !! "name" = Some (of_opt (name a)) ∧
  m !! "requires" = Some (VRef lr) ∧
  m !! "provides" = Some (VRef lp) ∧
  m !! "ml_stage" = Some (of_opt (ml_stage a)) ∧
  m !! "rebind" = Some (VRef lb) ∧
  m !! "run_id" = Some (of_opt (run_id a)) ∧
  m !! "tracking_uri" = Some (of_opt (tracking_uri a)) ∧
  m !! "experiment_name" = Some (VStr e) ∧
  m !! "tags" = Some (VRef lt).
Proof. unfold stored. repeat split; by simplify_map_eq. Qed.

(** A successful construction: the attributes [requires] and [provides]
    and the dictionaries behind them. *)
Lemma init_bindings (cls : StepClass) (a : Args) s :
  wf_args s a = true → tracking_ok a = true →
  ∃ s', __init__ cls a s = (Return tt, s') ∧
        attr_dict s' "requires" =
          Some (staged (ml_stage a)
                  (chosen (default_requires cls) (requires a ≫= dict_at s))) ∧
        attr_dict s' "provides" =
          Some (staged (ml_stage a)
                  (chosen (default_provides cls) (provides a ≫= dict_at s))) ∧
        me s' !! "ml_stage" = Some (of_opt (ml_stage a)).
Proof.
  intros Hwf Hok.
  destruct (init_spec cls a s Hwf)
    as (lr & lp & lb & lt & s' & E & _ & _ & Hme & Dr & Dp & _).
  rewrite Hok in E, Hme. exists s'. split; [done|].
  unfold attr_dict. rewrite Hme.
  destruct (stored_lookup a lr lp lb
              match experiment_name a with Some e => e | None => "Default" end
              lt (me s)) as (_ & _ & _ & -> & -> & -> & _).
  done.
Qed.

(** ** Binding resolution *)

(** C3. With no explicit [requires]/[provides] and [ml_stage=None], the
    constructor succeeds and the stored [requires] and [provides] are the
    identity mappings over [default_requires] and [default_provides]: a key
    is bound exactly when it is a default name, and it is bound to itself.
    (This holds for empty default lists as well.) *)
Theorem defaults_give_identity_mappings (cls : StepClass) (a : Args) s :
  wf_args s a = true → tracking_ok a = true →
  requires a = None → provides a = None → ml_stage a = None →
  ∃ s' r p,
    __init__ cls a s = (Return tt, s') ∧
    attr_dict s' "requires" = Some r ∧
    attr_dict s' "provides" = Some p ∧
    (∀ k v, r !! k = Some v ↔ k ∈ default_requires cls ∧ v = k) ∧
    (∀ k v, p !! k = Some v ↔ k ∈ default_provides cls ∧ v = k).
Proof.
  intros Hwf Hok Hr Hp Hs.
  destruct (init_bindings cls a s Hwf Hok) as (s' & E & Dr & Dp & _).
  rewrite Hr, Hp, Hs in *. simpl in Dr, Dp.
  exists s', (identity_dict (default_requires cls)),
    (identity_dict (default_provides cls)).
  do 3 (split; [done|]).
  split; intros k v; apply identity_dict_lookup.
Qed.

(** C2. With [ml_stage] set to a (non-empty) stage label [st], the
    constructor succeeds and, on both sides, every stored value is the
    value before suffixing followed by ["_" ++ st], under the same key:
    for an explicit non-empty override [d] the stored mapping has the keys
    of [d] and sends [k] to [d[k] ++ "_" ++ st]; when the mapping comes from
    the defaults (no override, or an empty one) it binds exactly the default
    names, each [k] to [k ++ "_" ++ st]. *)
Theorem stage_suffixes_values_only (cls : StepClass) (a : Args) s st :
  wf_args s a = true → tracking_ok a = true →
  ml_stage a = Some st → st ≠ "" →
  ∃ s' r p,
    __init__ cls a s = (Return tt, s') ∧
    attr_dict s' "requires" = Some r ∧
    attr_dict s' "provides" = Some p ∧
    (∀ l d, requires a = Some l → dict_at s l = Some d → d ≠ ∅ →
       dom r = dom d ∧
       ∀ k, r !! k = (λ v, v +:+ "_" +:+ st) <$> d !! k) ∧
    (requires a = None ∨
       (∃ l, requires a = Some l ∧ dict_at s l = Some ∅) →
       ∀ k v, r !! k = Some v ↔
              k ∈ default_requires cls ∧ v = k +:+ "_" +:+ st) ∧
    (∀ l d, provides a = Some l → dict_at s l = Some d → d ≠ ∅ →
       dom p = dom d ∧
       ∀ k, p !! k = (λ v, v +:+ "_" +:+ st) <$> d !! k) ∧
    (provides a = None ∨
       (∃ l, provides a = Some l ∧ dict_at s l = Some ∅) →
       ∀ k v, p !! k = Some v ↔
              k ∈ default_provides cls ∧ v = k +:+ "_" +:+ st).
Proof.
  intros Hwf Hok Hs Hne.
  destruct (init_bindings cls a s Hwf Hok) as (s' & E & Dr & Dp & _).
  rewrite Hs in Dr, Dp. simpl in Dr, Dp.
  rewrite (truthy_nonempty _ Hne) in Dr, Dp.
  do 3 eexists. split; [exact E|]. split; [exact Dr|]. split; [exact Dp|].
  split; [|split; [|split]].
  - intros l d -> Hd Hd0. simpl. rewrite Hd. simpl.
    rewrite bool_decide_eq_false_2 by done.
    split; [apply dom_fmap_L | intros k; apply suffixed_lookup].
  - intros [->|(l & -> & Hd)] k v; simpl; [|rewrite Hd; simpl];
      apply suffixed_identity_lookup.
  - intros l d -> Hd Hd0. simpl. rewrite Hd. simpl.
    rewrite bool_decide_eq_false_2 by done.
    split; [apply dom_fmap_L | intros k; apply suffixed_lookup].
  - intros [->|(l & -> & Hd)] k v; simpl; [|rewrite Hd; simpl];
      apply suffixed_identity_lookup.
Qed.

(** C1, as the code has it. An explicit non-empty [requires] mapping is
    used as given: the stored mapping has exactly its keys, whatever
    [default_requires] holds. An explicitly empty mapping is falsy, so line
    66 treats it like an absent one and the stored keys are the default
    names. The same holds for [provides] and [default_provides]. *)
Theorem explicit_nonempty_mapping_keeps_its_keys
    (cls : StepClass) (a : Args) s :
  wf_args s a = true → tracking_ok a = true →
  ∃ s' r p,
    __init__ cls a s = (Return tt, s') ∧
    attr_dict s' "requires" = Some r ∧
    attr_dict s' "provides" = Some p ∧
    (∀ l d, requires a = Some l → dict_at s l = Some d → d ≠ ∅ →
       dom r = dom d) ∧
    (∀ l, requires a = Some l → dict_at s l = Some ∅ →
       dom r = list_to_set (default_requires cls)) ∧
    (∀ l d, provides a = Some l → dict_at s l = Some d → d ≠ ∅ →
       dom p = dom d) ∧
    (∀ l, provides a = Some l → dict_at s l = Some ∅ →
       dom p = list_to_set (default_provides cls)).
Proof.
  intros Hwf Hok.
  destruct (init_bindings cls a s Hwf Hok) as (s' & E & Dr & Dp & _).
  do 3 eexists. split; [exact E|]. split; [exact Dr|]. split; [exact Dp|].
  assert (∀ stage d, dom (staged stage d) = dom d) as Hdom.
  { intros [st|] d; simpl; [destruct (truthy st)|]; try done.
    apply dom_fmap_L. }
  split; [|split; [|split]].
  - intros l d -> Hd Hd0. simpl. rewrite Hd, Hdom. simpl.
    by rewrite bool_decide_eq_false_2.
  - intros l -> Hd. simpl. rewrite Hd, Hdom. simpl.
    apply identity_dict_dom.
  - intros l d -> Hd Hd0. simpl. rewrite Hd, Hdom. simpl.
    by rewrite bool_decide_eq_false_2.
  - intros l -> Hd. simpl. rewrite Hd, Hdom. simpl.
    apply identity_dict_dom.
Qed.

(** C10. With [ml_stage] the empty string the constructor succeeds, stores
    the attribute [ml_stage] as the empty string (not [None]), and appends
    nothing: an explicit non-empty override is stored as it was given (the
    very same object), and a side taken from the defaults is the identity
    mapping over them. *)
Theorem empty_stage_adds_no_suffix (cls : StepClass) (a : Args) s :
  wf_args s a = true → tracking_ok a = true →
  ml_stage a = Some "" →
  ∃ s' r p,
    __init__ cls a s = (Return tt, s') ∧
    me s' !! "ml_stage" = Some (VStr "") ∧
    attr_dict s' "requires" = Some r ∧
    attr_dict s' "provides" = Some p ∧
    (∀ l d, requires a = Some l → dict_at s l = Some d → d ≠ ∅ →
       r = d ∧ me s' !! "requires" = Some (VRef l)) ∧
    (requires a = None ∨
       (∃ l, requires a = Some l ∧ dict_at s l = Some ∅) →
       ∀ k v, r !! k = Some v ↔ k ∈ default_requires cls ∧ v = k) ∧
    (∀ l d, provides a = Some l → dict_at s l = Some d → d ≠ ∅ →
       p = d ∧ me s' !! "provides" = Some (VRef l)) ∧
    (provides a = None ∨
       (∃ l, provides a = Some l ∧ dict_at s l = Some ∅) →
       ∀ k v, p !! k = Some v ↔ k ∈ default_provides cls ∧ v = k).
Proof.
  intros Hwf Hok Hs.
  destruct (init_spec cls a s Hwf)
    as (lr & lp & lb & lt & s' & E & _ & _ & Hme & Dr & Dp & _ & _ & _ & _
        & Ar & Ap).
  rewrite Hok in E, Hme. rewrite Hs in Dr, Dp, Ar, Ap. simpl in Dr, Dp.
  specialize (Ar eq_refl). specialize (Ap eq_refl).
  destruct (stored_lookup a lr lp lb
              match experiment_name a with Some e => e | None => "Default" end
              lt (me s)) as (_ & _ & _ & Lr & Lp & Ls & _).
  rewrite <- Hme in Lr, Lp, Ls. rewrite Hs in Ls.
  do 3 eexists. split; [exact E|]. split; [exact Ls|].
  unfold attr_dict. rewrite Lr, Lp.
  split; [exact Dr|]. split; [exact Dp|].
  split; [|split; [|split]].
  - intros l d Hl Hd Hd0. rewrite (Ar l d Hl Hd Hd0). split; [|done].
    rewrite Hl. simpl. rewrite Hd. simpl. by rewrite bool_decide_eq_false_2.
  - intros [->|(l & -> & Hd)] k v; simpl; [|rewrite Hd; simpl];
      apply identity_dict_lookup.
  - intros l d Hl Hd Hd0. rewrite (Ap l d Hl Hd Hd0). split; [|done].
    rewrite Hl. simpl. rewrite Hd. simpl. by rewrite bool_decide_eq_false_2.
  - intros [->|(l & -> & Hd)] k v; simpl; [|rewrite Hd; simpl];
      apply identity_dict_lookup.
Qed.

(** ** Tracking validation *)

(** C4, as the code has it. The constructor raises exactly when [run_id] is
    set and [tracking_uri] is not, and what it raises then is the
    [ValueError] of line 79; the source has no [ConfigurationError]. In
    every other case, a [tracking_uri] without a [run_id] included, it
    returns. *)
Theorem tracking_validation (cls : StepClass) (a : Args) s :
  wf_args s a = true →
  let out := fst (__init__ cls a s) in
  (is_Some (run_id a) ∧ tracking_uri a = None →
     out = Raise (ValueError
             "If tracking is enabled, a `tracking_uri` must be provided")) ∧
  (is_Some (run_id a) ∧ is_Some (tracking_uri a) → out = Return tt) ∧
  (run_id a = None ∧ tracking_uri a = None → out = Return tt) ∧
  (run_id a = None ∧ is_Some (tracking_uri a) → out = Return tt) ∧
  ((∃ e, out = Raise e) ↔ is_Some (run_id a) ∧ tracking_uri a = None).
Proof.
  intros Hwf out.
  destruct (init_spec cls a s Hwf) as (lr & lp & lb & lt & s' & E & _).
  subst out. rewrite E. unfold tracking_ok. simpl.
  destruct (run_id a) as [r|], (tracking_uri a) as [u|]; simpl.
  all: unfold is_Some; split_and!; try done.
  all: try (by intros [[? ?] ?]); try (by intros [? [? ?]]).
  all: try (by intros [? ?]).
  all: split; try (by intros [? ?]); try (by intros [[? ?] ?]).
  all: eauto.
Qed.

(** C9. The check of line 78 is [run_id is not None]: the empty string is a
    [run_id], and without a [tracking_uri] the constructor raises the
    [ValueError]. *)
Theorem empty_run_id_needs_tracking_uri (cls : StepClass) (a : Args) s :
  wf_args s a = true →
  run_id a = Some "" → tracking_uri a = None →
  ∃ s', __init__ cls a s =
          (Raise (ValueError
             "If tracking is enabled, a `tracking_uri` must be provided"),
           s').
Proof.
  intros Hwf Hr Hu.
  destruct (init_spec cls a s Hwf) as (lr & lp & lb & lt & s' & E & _).
  unfold tracking_ok in E. rewrite Hr, Hu in E. by exists s'.
Qed.

(** C7. When the constructor raises for a [run_id] without a
    [tracking_uri], the instance has the attributes it had before the call:
    no assignment of lines 84-94 has run. On a fresh instance none of the
    eleven attributes exists. *)
Theorem failed_construction_sets_no_attribute
    (cls : StepClass) (a : Args) s :
  wf_args s a = true →
  is_Some (run_id a) → tracking_uri a = None →
  ∃ s', __init__ cls a s =
          (Raise (ValueError
             "If tracking is enabled, a `tracking_uri` must be provided"),
           s') ∧
        me s' = me s ∧
        (me s = ∅ →
         Forall (λ k, me s' !! k = None)
           ["catalog"; "parameters"; "name"; "requires"; "provides";
            "ml_stage"; "rebind"; "run_id"; "tracking_uri";
            "experiment_name"; "tags"]).
Proof.
  intros Hwf [r Hr] Hu.
  destruct (init_spec cls a s Hwf)
    as (lr & lp & lb & lt & s' & E & _ & _ & Hme & _).
  unfold tracking_ok in E, Hme. rewrite Hr, Hu in E, Hme.
  exists s'. split; [done|]. split; [done|].
  intros H0. rewrite Hme, H0. by repeat constructor.
Qed.

(** ** Defaults of the remaining arguments *)

(** C6. After a successful construction: [rebind] (resp. [tags]) is a new
    empty dictionary when the argument is [None], and otherwise the very
    object that was passed, with its contents as they were, empty or not;
    [experiment_name] is ["Default"] when the argument is [None] and the
    supplied string otherwise. *)
Theorem optional_arguments_default_only_when_absent
    (cls : StepClass) (a : Args) s :
  wf_args s a = true → tracking_ok a = true →
  ∃ s',
    __init__ cls a s = (Return tt, s') ∧
    (rebind a = None → attr_dict s' "rebind" = Some ∅) ∧
    (∀ l d, rebind a = Some l → dict_at s l = Some d →
       me s' !! "rebind" = Some (VRef l) ∧ dict_at s' l = Some d) ∧
    (tags a = None → attr_tags s' "tags" = Some ∅) ∧
    (∀ l d, tags a = Some l → tags_at s l = Some d →
       me s' !! "tags" = Some (VRef l) ∧ tags_at s' l = Some d) ∧
    (experiment_name a = None →
       me s' !! "experiment_name" = Some (VStr "Default")) ∧
    (∀ e, experiment_name a = Some e →
       me s' !! "experiment_name" = Some (VStr e)).
Proof.
  intros Hwf Hok.
  destruct (init_spec cls a s Hwf)
    as (lr & lp & lb & lt & s' & E & _ & _ & Hme & _ & _ & Db & Dt & Ab & At
        & _).
  rewrite Hok in E, Hme. specialize (Dt Hok).
  destruct (stored_lookup a lr lp lb
              match experiment_name a with Some e => e | None => "Default" end
              lt (me s)) as (_ & _ & _ & _ & _ & _ & Lb & _ & _ & Le & Lt).
  rewrite <- Hme in Lb, Le, Lt.
  exists s'. split; [done|]. unfold attr_dict, attr_tags. rewrite Lb, Lt, Le.
  split; [|split; [|split; [|split; [|split]]]].
  - intros Hb. by rewrite Hb in Db.
  - intros l d Hb Hd. rewrite Hb in Db. simpl in Db. rewrite Hd in Db.
    by rewrite <- (Ab l Hb).
  - intros Ht. by rewrite Ht in Dt.
  - intros l d Ht Hd. rewrite Ht in Dt. simpl in Dt. rewrite Hd in Dt.
    by rewrite <- (At l Ht).
  - by intros ->.
  - by intros e ->.
Qed.

(** ** The lifecycle hooks *)

Lemma execute_message cls :
  format1 ("`{}` is a subclass of WorkflowStep and" +:+
           "it must implement the `execute` method") (__name__ cls)
  = "`" +:+ __name__ cls +:+
    "` is a subclass of WorkflowStep andit must implement the `execute` method".
Proof. reflexivity. Qed.

Lemma execute_raises cls s :
  execute cls s =
    (Raise (NotImplementedError
       ("`" +:+ __name__ cls +:+
        "` is a subclass of WorkflowStep andit must implement the `execute` method")),
     s).
Proof. unfold execute. by rewrite execute_message. Qed.

Section Execute.

Context (run_body : Body → M unit → M unit).
Context (abc_message : string → string).

(** C5, as the code has it. A step class that does not override [execute]
    cannot be instantiated: constructing it raises [TypeError] and leaves
    the state as it was, so [execute] is never called on it. The base body
    runs when a subclass that overrides [execute] delegates to it
    ([super().execute()]): the call then raises [NotImplementedError], and
    the message names the concrete class of the instance. *)
Theorem execute_raises_only_by_delegation cls a s :
  wf_args s a = true → tracking_ok a = true →
  (own_execute cls = None →
     construct_and_execute run_body abc_message cls a s =
       (Raise (TypeError (abc_message (__name__ cls))), s)) ∧
  (∀ body,
     own_execute cls = Some body →
     (∀ base s0, run_body body base s0 = base s0) →
     ∃ s',
       __init__ cls a s = (Return tt, s') ∧
       construct_and_execute run_body abc_message cls a s =
         (Raise (NotImplementedError
            ("`" +:+ __name__ cls +:+
             "` is a subclass of WorkflowStep andit must implement the `execute` method")),
          s')).
Proof.
  intros Hwf Hok. unfold construct_and_execute, instantiate. split.
  - by intros ->.
  - intros body -> Hdel.
    destruct (init_bindings cls a s Hwf Hok) as (s' & E & _).
    exists s'. split; [done|].
    by rewrite (bind_return _ _ _ _ _ E), Hdel, execute_raises.
Qed.

End Execute.

(** ** Purity *)

Lemma observe_of_opt s o : observe s (of_opt o) = snapshot_of o.
Proof. by destruct o. Qed.

Lemma observe_dict s l d : dict_at s l = Some d → observe s (VRef l) = SDict d.
Proof.
  unfold dict_at. simpl. destruct (heap s !! l) as [[]|]; naive_solver.
Qed.

Lemma observe_tags s l d : tags_at s l = Some d → observe s (VRef l) = STags d.
Proof.
  unfold tags_at. simpl. destruct (heap s !! l) as [[]|]; naive_solver.
Qed.

Lemma init_attributes (cls : StepClass) (a : Args) s :
  wf_args s a = true → me s = ∅ →
  ∃ s', __init__ cls a s =
          (if tracking_ok a then Return tt
           else Raise (ValueError
                  "If tracking is enabled, a `tracking_uri` must be provided"),
           s') ∧
        attributes s' =
          (if tracking_ok a
           then expected cls (catalog a) (parameters a) (name a)
                  (requires a ≫= dict_at s) (provides a ≫= dict_at s)
                  (ml_stage a) (rebind a ≫= dict_at s)
                  (run_id a) (tracking_uri a) (experiment_name a)
                  (tags a ≫= tags_at s)
           else ∅) ∧
        log s' = log s ∧
        (∀ l o, heap s !! l = Some o → heap s' !! l = Some o).
Proof.
  intros Hwf H0.
  destruct (init_spec cls a s Hwf)
    as (lr & lp & lb & lt & s' & E & Hh & Hl & Hme & Dr & Dp & Db & Dt & _).
  exists s'. split; [done|]. split; [|split; [done|]].
  - unfold attributes. rewrite Hme, H0.
    destruct (tracking_ok a); [|apply fmap_empty].
    unfold stored, expected. rewrite !fmap_insert, fmap_empty.
    rewrite !observe_of_opt, (observe_dict _ _ _ Dr), (observe_dict _ _ _ Dp),
      (observe_dict _ _ _ Db), (observe_tags _ _ _ (Dt eq_refl)).
    done.
  - intros l o Hlo. by eapply prefix_lookup_Some.
Qed.

(** C8. Two constructions of the same step type whose inputs agree as
    values end the same way and, on fresh instances, leave the same
    attributes, wherever the argument dictionaries are stored. Each call
    makes no collaborator call (the log is as it was) and leaves every
    object that existed before it, the argument dictionaries among them,
    as it was: it only allocates and sets attributes of its own instance. *)
Theorem construction_is_pure (cls : StepClass) (a1 a2 : Args) s1 s2 :
  wf_args s1 a1 = true → wf_args s2 a2 = true →
  me s1 = ∅ → me s2 = ∅ →
  same_inputs s1 a1 s2 a2 →
  ∃ out s1' s2',
    __init__ cls a1 s1 = (out, s1') ∧
    __init__ cls a2 s2 = (out, s2') ∧
    attributes s1' = attributes s2' ∧
    log s1' = log s1 ∧ log s2' = log s2 ∧
    (∀ l o, heap s1 !! l = Some o → heap s1' !! l = Some o) ∧
    (∀ l o, heap s2 !! l = Some o → heap s2' !! l = Some o).
Proof.
  intros W1 W2 M1 M2 (Hc & Hp & Hn & Hr & Hq & Hs & Hb & Hi & Hu & He & Ht).
  destruct (init_attributes cls a1 s1 W1 M1) as (s1' & E1 & A1 & L1 & F1).
  destruct (init_attributes cls a2 s2 W2 M2) as (s2' & E2 & A2 & L2 & F2).
  assert (tracking_ok a1 = tracking_ok a2) as Hok.
  { unfold tracking_ok. by rewrite Hi, Hu. }
  do 3 eexists. split; [exact E1|]. split; [by rewrite E2, Hok|].
  split; [|done].
  rewrite A1, A2, Hok, Hc, Hp, Hn, Hr, Hq, Hs, Hb, Hi, Hu, He, Ht. done.
Qed.

(** * Further properties of the constructor and the hooks *)

(** ** Where the stored dictionaries come from *)

Lemma dict_at_lt s l d : dict_at s l = Some d → l < length (heap s).
Proof.
  unfold dict_at. destruct (heap s !! l) as [o|] eqn:E; [|done].
  intros _. by eapply lookup_lt_Some.
Qed.

Lemma is_str_dict_Some s l :
  is_str_dict s (Some l) = true → ∃ d, dict_at s l = Some d.
Proof.
  unfold dict_at. simpl. destruct (heap s !! l) as [[d|]|]; eauto; done.
Qed.

Lemma alloc_length o s s' l :
  alloc o s = (Return l, s') →
  l = length (heap s) ∧ length (heap s') = S (length (heap s)).
Proof.
  unfold alloc. intros [= <- <-]. simpl. rewrite length_app. simpl.
  split; [done|lia].
Qed.

Lemma default_step_origin defaults given s :
  is_str_dict s given = true →
  ∃ l s', default_step defaults given s = (Return l, s') ∧ grows s s' ∧
          is_str_dict s' (Some l) = true ∧
          ((given = Some l ∧ (∃ d, dict_at s l = Some d ∧ d ≠ ∅) ∧ s' = s) ∨
           ((given = None ∨
             ∃ l0, given = Some l0 ∧ dict_at s l0 = Some ∅) ∧
            l = length (heap s) ∧
            length (heap s') = S (length (heap s)))).
Proof.
  intros Hwf.
  assert (∀ o, ∃ l s', alloc (StrDict o) s = (Return l, s') ∧ grows s s' ∧
                       is_str_dict s' (Some l) = true ∧
                       l = length (heap s) ∧
                       length (heap s') = S (length (heap s))) as Hnew.
  { intros o. destruct (alloc_spec (StrDict o) s) as (s' & E & Hg & Hl).
    exists (length (heap s)), s'. split; [done|]. split; [done|].
    split; [simpl; by rewrite Hl|]. by apply alloc_length in E as [_ ?]. }
  destruct given as [l0|].
  - destruct (is_str_dict_Some _ _ Hwf) as [d Hd].
    unfold default_step. rewrite (bind_return _ _ _ _ _ (items_spec _ _ _ Hd)).
    case_bool_decide as He.
    + destruct (Hnew (identity_dict defaults)) as (l & s' & E & Hg & W & -> & Hn).
      exists (length (heap s)), s'. do 3 (split; [done|]). right.
      split; [|done]. right. exists l0. by rewrite <- He.
    + exists l0, s. split; [done|]. split; [apply grows_refl|].
      split; [done|]. left. eauto.
  - unfold default_step.
    destruct (Hnew (identity_dict defaults)) as (l & s' & E & Hg & W & -> & Hn).
    exists (length (heap s)), s'. do 3 (split; [done|]). right. eauto.
Qed.

Lemma stage_step_origin stage r s :
  is_str_dict s (Some r) = true →
  ∃ l s', stage_step stage r s = (Return l, s') ∧ grows s s' ∧
          is_str_dict s' (Some l) = true ∧
          ((suffixing stage = false ∧ l = r ∧ s' = s) ∨
           (suffixing stage = true ∧ l = length (heap s) ∧
            length (heap s') = S (length (heap s)))).
Proof.
  intros Hwf. destruct (is_str_dict_Some _ _ Hwf) as [d Hd].
  unfold stage_step, suffixing.
  destruct stage as [st|]; [destruct (truthy st)|].
  - rewrite (bind_return _ _ _ _ _ (items_spec _ _ _ Hd)).
    destruct (alloc_spec (StrDict (suffixed st d)) s) as (s' & E & Hg & Hl).
    exists (length (heap s)), s'. split; [done|]. split; [done|].
    split; [simpl; by rewrite Hl|]. right.
    by apply alloc_length in E as [_ ?].
  - exists r, s. split; [done|]. split; [apply grows_refl|]. eauto.
  - exists r, s. split; [done|]. split; [apply grows_refl|]. eauto.
Qed.

Lemma grows_length s s' : grows s s' → length (heap s) ≤ length (heap s').
Proof. intros (Hh & _). by apply prefix_length. Qed.

Lemma side_origin defaults given stage s :
  is_str_dict s given = true →
  ∃ l s',
    (∀ B (k : loc → M B),
       (x ← default_step defaults given; y ← stage_step stage x; k y) s
       = k l s') ∧
    grows s s' ∧
    ((suffixing stage = false ∧ given = Some l ∧
      (∃ d, dict_at s l = Some d ∧ d ≠ ∅) ∧ s' = s) ∨
     ((suffixing stage = true ∨ given = None ∨
       ∃ l0, given = Some l0 ∧ dict_at s l0 = Some ∅) ∧
      length (heap s) ≤ l < length (heap s'))).
Proof.
  intros Hwf.
  destruct (default_step_origin defaults _ _ Hwf)
    as (l1 & s1 & E1 & G1 & W1 & O1).
  destruct (stage_step_origin stage _ _ W1) as (l2 & s2 & E2 & G2 & W2 & O2).
  exists l2, s2. split.
  { intros B k.
    by rewrite (bind_return _ _ _ _ _ E1), (bind_return _ _ _ _ _ E2). }
  split; [by eapply grows_trans|].
  destruct (is_str_dict_Some _ _ W2) as [d2 Hd2%dict_at_lt].
  pose proof (grows_length _ _ G1) as L1.
  destruct O1 as [(Hg & Hd & ->)|(Hg & -> & L1')],
           O2 as [(Hs & -> & ->)|(Hs & -> & L2')].
  - left. eauto.
  - right. split; [by left|]. lia.
  - right. split; [by right|]. lia.
  - right. split; [by left|]. lia.
Qed.

(** A successful construction, with the address of every stored dictionary:
    either the address the caller passed, or one allocated by the call, in
    the order requires, provides, rebind, tags. *)
Lemma init_origins cls a s :
  wf_args s a = true → tracking_ok a = true →
  ∃ lr lp lb lt n1 n2 n3 s',
    __init__ cls a s = (Return tt, s') ∧
    me s' =
      stored a lr lp lb
        match experiment_name a with Some e => e | None => "Default" end
        lt (me s) ∧
    heap s `prefix_of` heap s' ∧
    length (heap s) ≤ n1 ∧ n1 ≤ n2 ∧ n2 ≤ n3 ∧ n3 ≤ length (heap s') ∧
    ((suffixing (ml_stage a) = false ∧ requires a = Some lr ∧
      (∃ d, dict_at s lr = Some d ∧ d ≠ ∅) ∧ n1 = length (heap s)) ∨
     ((suffixing (ml_stage a) = true ∨ requires a = None ∨
       ∃ l0, requires a = Some l0 ∧ dict_at s l0 = Some ∅) ∧
      length (heap s) ≤ lr < n1)) ∧
    ((suffixing (ml_stage a) = false ∧ provides a = Some lp ∧
      (∃ d, dict_at s lp = Some d ∧ d ≠ ∅) ∧ n2 = n1) ∨
     ((suffixing (ml_stage a) = true ∨ provides a = None ∨
       ∃ l0, provides a = Some l0 ∧ dict_at s l0 = Some ∅) ∧
      n1 ≤ lp < n2)) ∧
    ((rebind a = Some lb ∧ lb < length (heap s) ∧ n3 = n2) ∨
     (rebind a = None ∧ n2 ≤ lb < n3)) ∧
    ((tags a = Some lt ∧ lt < length (heap s) ∧ length (heap s') = n3) ∨
     (tags a = None ∧ n3 ≤ lt < length (heap s'))).
Proof.
  unfold wf_args. intros Hwf Hok.
  apply andb_prop in Hwf as [Hwf Wt].
  apply andb_prop in Hwf as [Hwf Wb].
  apply andb_prop in Hwf as [Wr Wp].
  destruct (side_origin (default_requires cls) _ (ml_stage a) _ Wr)
    as (lr & s2 & K1 & G1 & O1).
  destruct (is_str_dict_grows _ _ _ G1 Wp) as [Wp2 Qp].
  destruct (side_origin (default_provides cls) _ (ml_stage a) _ Wp2)
    as (lp & s4 & K2 & G2 & O2).
  pose proof (grows_trans _ _ _ G1 G2) as G04.
  pose proof (grows_length _ _ G1) as L1.
  pose proof (grows_length _ _ G2) as L2.
  assert (∃ lb s5,
            match rebind a with
            | Some l => ret l
            | None => alloc (StrDict ∅)
            end s4 = (Return lb, s5) ∧ grows s4 s5 ∧
            ((rebind a = Some lb ∧ lb < length (heap s) ∧ s5 = s4) ∨
             (rebind a = None ∧ lb = length (heap s4) ∧
              length (heap s5) = S (length (heap s4))))) as
    (lb & s5 & E5 & G5 & O5).
  { destruct (rebind a) as [l|].
    - exists l, s4. split; [done|]. split; [apply grows_refl|]. left.
      destruct (is_str_dict_Some _ _ Wb) as [d Hd%dict_at_lt]. eauto.
    - destruct (alloc_spec (StrDict ∅) s4) as (s5 & E & Hg & _).
      exists (length (heap s4)), s5. split; [done|]. split; [done|]. right.
      by apply alloc_length in E as [_ ?]. }
  assert (∃ lt s6,
            match tags a with
            | Some l => ret l
            | None => alloc (AnyDict ∅)
            end s5 = (Return lt, s6) ∧ grows s5 s6 ∧
            ((tags a = Some lt ∧ lt < length (heap s) ∧ s6 = s5) ∨
             (tags a = None ∧ lt = length (heap s5) ∧
              length (heap s6) = S (length (heap s5))))) as
    (lt & s6 & E6 & G6 & O6).
  { destruct (tags a) as [l|] eqn:Et.
    - exists l, s5. split; [done|]. split; [apply grows_refl|]. left.
      split; [done|]. split; [|done]. simpl in Wt.
      destruct (heap s !! l) as [o|] eqn:E; [|done].
      by eapply lookup_lt_Some.
    - destruct (alloc_spec (AnyDict ∅) s5) as (s6 & E & Hg & _).
      exists (length (heap s5)), s6. split; [done|]. split; [done|]. right.
      by apply alloc_length in E as [_ ?]. }
  pose proof (grows_length _ _ G5) as L5.
  pose proof (grows_length _ _ G6) as L6.
  pose proof (grows_trans _ _ _ G04 (grows_trans _ _ _ G5 G6)) as G.
  exists lr, lp, lb, lt, (length (heap s2)), (length (heap s4)),
    (length (heap s5)),
    (mkState (heap s6)
       (stored a lr lp lb
          match experiment_name a with Some e => e | None => "Default" end
          lt (me s6)) (log s6)).
  split.
  { rewrite init_steps, K1, K2, (bind_return _ _ _ _ _ E5).
    unfold tracking_ok in Hok.
    destruct (run_id a) as [r|], (tracking_uri a) as [u|]; try done.
    all: by rewrite !bind_ret, (bind_return _ _ _ _ _ E6). }
  destruct G as (Gh & Gm & _). simpl.
  split; [by rewrite Gm|]. split; [done|].
  do 4 (split; [lia|]).
  split; [|split; [|split]].
  - destruct O1 as [(? & ? & ? & ->)|[? ?]]; [left|right]; eauto.
  - destruct O2 as [(? & Hl & (d & Hd & ?) & ->)|[Hc ?]]; [left|right].
    + rewrite Hl in Qp. simpl in Qp. rewrite Hd in Qp. eauto 8.
    + split; [|done]. destruct Hc as [?|[?|(l0 & Hl & Hd)]]; eauto.
      right; right. exists l0. rewrite Hl in Qp. simpl in Qp.
      by rewrite <- Qp.
  - destruct O5 as [(? & ? & ->)|(? & -> & ?)]; [left|right]; eauto with lia.
  - destruct O6 as [(? & ? & ->)|(? & -> & ?)]; [left|right]; eauto with lia.
Qed.

Lemma stored_dom a lr lp lb e lt (d : gmap string (@value DataCatalog DictConfig)) :
  dom (stored a lr lp lb e lt d) = dom d ∪ list_to_set attribute_names.
Proof.
  unfold stored, attribute_names. rewrite !dom_insert_L. simpl.
  apply set_eq. intros k.
  rewrite !elem_of_union, !elem_of_singleton, elem_of_empty. tauto.
Qed.

Lemma stored_other a lr lp lb e lt (d : gmap string (@value DataCatalog DictConfig)) k :
  k ∉ attribute_names → stored a lr lp lb e lt d !! k = d !! k.
Proof.
  unfold stored, attribute_names. intros Hk.
  repeat (rewrite lookup_insert_ne;
            [|intros <-; apply Hk; repeat constructor]).
  done.
Qed.

(** X1. A successful construction stores [catalog], [parameters], [name],
    [run_id] and [tracking_uri] exactly as passed ([None] stays [None]),
    assigns the eleven attributes of lines 84-94 and no other: the
    attribute names afterwards are the earlier ones plus these eleven, and
    any other attribute keeps its value. *)
Theorem constructor_assigns_exactly_its_attributes cls a s :
  wf_args s a = true → tracking_ok a = true →
  ∃ s',
    __init__ cls a s = (Return tt, s') ∧
    me s' !! "catalog" = Some (VCatalog (catalog a)) ∧
    me s' !! "parameters" = Some (VConfig (parameters a)) ∧
    me s' !! "name" = Some (of_opt (name a)) ∧
    me s' !! "run_id" = Some (of_opt (run_id a)) ∧
    me s' !! "tracking_uri" = Some (of_opt (tracking_uri a)) ∧
    dom (me s') = dom (me s) ∪ list_to_set attribute_names ∧
    (∀ k, k ∉ attribute_names → me s' !! k = me s !! k).
Proof.
  intros Hwf Hok.
  destruct (init_spec cls a s Hwf)
    as (lr & lp & lb & lt & s' & E & _ & _ & Hme & _).
  rewrite Hok in E, Hme. exists s'. split; [done|]. rewrite Hme.
  destruct (stored_lookup a lr lp lb
              match experiment_name a with Some e => e | None => "Default" end
              lt (me s)) as (-> & -> & -> & _ & _ & _ & _ & -> & -> & _).
  do 5 (split; [done|]). split; [apply stored_dom|].
  intros k Hk. by apply stored_other.
Qed.

(** X2. When [ml_stage] is [None] or empty and the caller supplies all four
    dictionaries, [requires] and [provides] non-empty, the constructor
    copies nothing: the heap and the log are as before, and the attributes
    refer to the caller's own objects. *)
Theorem supplied_dictionaries_are_stored_not_copied
    cls a s lr lp lb lt dr dp :
  wf_args s a = true → tracking_ok a = true →
  suffixing (ml_stage a) = false →
  requires a = Some lr → dict_at s lr = Some dr → dr ≠ ∅ →
  provides a = Some lp → dict_at s lp = Some dp → dp ≠ ∅ →
  rebind a = Some lb → tags a = Some lt →
  __init__ cls a s =
    (Return tt,
     mkState (heap s)
       (stored a lr lp lb
          match experiment_name a with Some e => e | None => "Default" end
          lt (me s))
       (log s)).
Proof.
  intros Hwf Hok Hs Hr Hdr Hner Hp Hdp Hnep Hb Ht.
  destruct (init_spec cls a s Hwf)
    as (lr' & lp' & lb' & lt' & s' & E & Hh & Hl & Hme & _ & _ & _ & _
        & Ab & At & Ar & Ap).
  rewrite Hok in E, Hme.
  rewrite (Ab _ Hb), (At _ Ht), (Ar Hs _ _ Hr Hdr Hner),
    (Ap Hs _ _ Hp Hdp Hnep) in Hme.
  destruct (init_origins cls a s Hwf Hok)
    as (? & ? & ? & ? & n1 & n2 & n3 & s'' & E' & _ & _ & L1 & L2 & L3 & L4
        & O1 & O2 & O3 & O4).
  rewrite E in E'. injection E' as <-.
  assert (length (heap s') ≤ length (heap s)) as Hlen.
  { destruct O1 as [(_ & _ & _ & ->)|([Hc|[Hc|(l0 & Hc & Hc')]] & _)];
      [|congruence..].
    destruct O2 as [(_ & _ & _ & ->)|([Hc|[Hc|(l0 & Hc & Hc')]] & _)];
      [|congruence..].
    destruct O3 as [(_ & _ & ->)|(Hc & _)]; [|congruence].
    destruct O4 as [(_ & _ & ->)|(Hc & _)]; [|congruence].
    done. }
  rewrite E. f_equal. destruct s' as [h m l]. simpl in *.
  by rewrite (prefix_length_eq _ _ Hh Hlen), Hme, Hl.
Qed.


(** X4. The constructor introduces no sharing of its own among the three
    [Dict[str, str]] attributes: two of [requires], [provides], [rebind]
    refer to one object only if the caller passed that very object for
    both. *)
Theorem attributes_share_only_what_the_caller_shared cls a s :
  wf_args s a = true → tracking_ok a = true →
  ∃ s' lr lp lb,
    __init__ cls a s = (Return tt, s') ∧
    me s' !! "requires" = Some (VRef lr) ∧
    me s' !! "provides" = Some (VRef lp) ∧
    me s' !! "rebind" = Some (VRef lb) ∧
    (lr = lp → requires a = Some lr ∧ provides a = Some lp) ∧
    (lr = lb → requires a = Some lr ∧ rebind a = Some lb) ∧
    (lp = lb → provides a = Some lp ∧ rebind a = Some lb).
Proof.
  intros Hwf Hok.
  destruct (init_origins cls a s Hwf Hok)
    as (lr & lp & lb & lt & n1 & n2 & n3 & s' & E & Hme & Hh & L1 & L2 & L3
        & L4 & O1 & O2 & O3 & O4).
  exists s', lr, lp, lb. split; [done|]. rewrite Hme.
  destruct (stored_lookup a lr lp lb
              match experiment_name a with Some e => e | None => "Default" end
              lt (me s)) as (_ & _ & _ & -> & -> & _ & -> & _).
  do 3 (split; [done|]).
  destruct O1 as [(_ & Hr & (dr & Hdr%dict_at_lt & _) & ?)|(_ & ?)],
           O2 as [(_ & Hp & (dp & Hdp%dict_at_lt & _) & ?)|(_ & ?)],
           O3 as [(Hb & ? & ?)|(_ & ?)].
  all: repeat split; try done; intros; exfalso; lia.
Qed.

(** ** Stage-qualified names *)

Lemma string_length_app (u t : string) :
  String.length (u +:+ t) = String.length u + String.length t.
Proof.
  induction u as [|c u IH]; [done|].
  change (S (String.length (u +:+ t)) = S (String.length u + String.length t)).
  by rewrite IH.
Qed.

Lemma string_app_inj_r (t u1 u2 : string) : u1 +:+ t = u2 +:+ t → u1 = u2.
Proof.
  revert u2. induction u1 as [|c1 u1 IH]; intros [|c2 u2] H.
  - done.
  - apply (f_equal String.length) in H.
    change (String.length t = S (String.length (u2 +:+ t))) in H.
    rewrite string_length_app in H. lia.
  - apply (f_equal String.length) in H.
    change (S (String.length (u1 +:+ t)) = String.length t) in H.
    rewrite string_length_app in H. lia.
  - change (String c1 (u1 +:+ t) = String c2 (u2 +:+ t)) in H.
    injection H as -> H. f_equal. by apply IH.
Qed.

Lemma suffix_inj_value st v1 v2 :
  v1 +:+ "_" +:+ st = v2 +:+ "_" +:+ st → v1 = v2.
Proof. apply string_app_inj_r. Qed.

Lemma suffix_inj_stage v st1 st2 :
  v +:+ "_" +:+ st1 = v +:+ "_" +:+ st2 → st1 = st2.
Proof. intros H%(inj (String.app v)). by apply (inj (String.app "_")) in H. Qed.

Lemma suffix_changes v st : v +:+ "_" +:+ st ≠ v.
Proof.
  intros H%(f_equal String.length). rewrite !string_length_app in H.
  simpl in H. lia.
Qed.

Lemma staged_false stage (d : gmap string string) :
  suffixing stage = false → staged stage d = d.
Proof.
  unfold suffixing, staged. destruct stage as [st|]; [|done]. by intros ->.
Qed.

Lemma staged_true stage (d : gmap string string) :
  suffixing stage = true → ∃ st, stage = Some st ∧ staged stage d = suffixed st d.
Proof.
  unfold suffixing, staged. destruct stage as [st|]; [|done].
  intros ->. eauto.
Qed.

Lemma staged_empty_inv stage (d : gmap string string) :
  staged stage d = ∅ → d = ∅.
Proof.
  unfold staged. destruct stage as [st|]; [destruct (truthy st)|]; try done.
  apply fmap_empty_inv.
Qed.

Lemma staged_lookup_inj stage (d : gmap string string) k1 k2 :
  staged stage d !! k1 = staged stage d !! k2 ↔ d !! k1 = d !! k2.
Proof.
  destruct (suffixing stage) eqn:Hs.
  - destruct (staged_true _ d Hs) as (st & _ & ->).
    rewrite !suffixed_lookup. split; [|by intros ->].
    destruct (d !! k1), (d !! k2); simpl; try done.
    by intros [= ->%suffix_inj_value].
  - by rewrite (staged_false _ _ Hs).
Qed.

Lemma staged_lookup_sep stage1 stage2 (d : gmap string string) k v1 v2 :
  suffixing stage1 = true ∨ suffixing stage2 = true →
  stage1 ≠ stage2 →
  staged stage1 d !! k = Some v1 → staged stage2 d !! k = Some v2 →
  v1 ≠ v2.
Proof.
  intros Hor Hne H1 H2 <-.
  destruct (suffixing stage1) eqn:S1, (suffixing stage2) eqn:S2.
  - destruct (staged_true _ d S1) as (st1 & -> & E1).
    destruct (staged_true _ d S2) as (st2 & -> & E2).
    rewrite E1, suffixed_lookup in H1. rewrite E2, suffixed_lookup in H2.
    destruct (d !! k) as [v|]; [|done]. simpl in H1, H2.
    injection H1 as H1. injection H2 as H2. rewrite <- H2 in H1.
    apply suffix_inj_stage in H1. apply Hne. by rewrite H1.
  - destruct (staged_true _ d S1) as (st1 & -> & E1).
    rewrite E1, suffixed_lookup in H1. rewrite (staged_false _ _ S2) in H2.
    rewrite H2 in H1. simpl in H1. injection H1 as H1.
    by eapply suffix_changes.
  - destruct (staged_true _ d S2) as (st2 & -> & E2).
    rewrite E2, suffixed_lookup in H2. rewrite (staged_false _ _ S1) in H1.
    rewrite H1 in H2. simpl in H2. injection H2 as H2.
    by eapply suffix_changes.
  - by destruct Hor.
Qed.

Lemma identity_dict_inj names k1 k2 v :
  identity_dict names !! k1 = Some v → identity_dict names !! k2 = Some v →
  k1 = k2.
Proof.
  intros [_ ->]%identity_dict_lookup [_ <-]%identity_dict_lookup. done.
Qed.

(** X5. Binding resolution never makes two datasets collide. With an
    explicit non-empty mapping, two logical keys are bound to the same
    catalog name after construction exactly when the supplied mapping
    bound them to the same name, whatever [ml_stage] is; on a side taken
    from the defaults, distinct keys are bound to distinct names. *)
Theorem distinct_datasets_stay_distinct cls a s :
  wf_args s a = true → tracking_ok a = true →
  ∃ s' r p,
    __init__ cls a s = (Return tt, s') ∧
    attr_dict s' "requires" = Some r ∧
    attr_dict s' "provides" = Some p ∧
    (∀ l d, requires a = Some l → dict_at s l = Some d → d ≠ ∅ →
       ∀ k1 k2, r !! k1 = r !! k2 ↔ d !! k1 = d !! k2) ∧
    (requires a = None ∨
       (∃ l, requires a = Some l ∧ dict_at s l = Some ∅) →
       ∀ k1 k2 v, r !! k1 = Some v → r !! k2 = Some v → k1 = k2) ∧
    (∀ l d, provides a = Some l → dict_at s l = Some d → d ≠ ∅ →
       ∀ k1 k2, p !! k1 = p !! k2 ↔ d !! k1 = d !! k2) ∧
    (provides a = None ∨
       (∃ l, provides a = Some l ∧ dict_at s l = Some ∅) →
       ∀ k1 k2 v, p !! k1 = Some v → p !! k2 = Some v → k1 = k2).
Proof.
  intros Hwf Hok.
  destruct (init_bindings cls a s Hwf Hok) as (s' & E & Dr & Dp & _).
  do 3 eexists. split; [exact E|]. split; [exact Dr|]. split; [exact Dp|].
  assert (∀ names stage k1 k2 v,
            staged stage (identity_dict names) !! k1 = Some v →
            staged stage (identity_dict names) !! k2 = Some v →
            k1 = k2) as Hid.
  { intros names stage k1 k2 v H1 H2.
    assert (identity_dict names !! k1 = identity_dict names !! k2) as H.
    { apply (staged_lookup_inj stage). by rewrite H1, H2. }
    destruct (identity_dict names !! k1) as [w|] eqn:E1.
    - by eapply identity_dict_inj.
    - exfalso. revert H1. unfold staged.
      destruct stage as [st|]; [destruct (truthy st)|];
        rewrite ?suffixed_lookup, E1; done. }
  split; [|split; [|split]].
  - intros l d -> Hd Hd0 k1 k2. simpl. rewrite Hd. simpl.
    rewrite bool_decide_eq_false_2 by done. apply staged_lookup_inj.
  - intros [->|(l & -> & Hd)]; simpl; [|rewrite Hd; simpl]; apply Hid.
  - intros l d -> Hd Hd0 k1 k2. simpl. rewrite Hd. simpl.
    rewrite bool_decide_eq_false_2 by done. apply staged_lookup_inj.
  - intros [->|(l & -> & Hd)]; simpl; [|rewrite Hd; simpl]; apply Hid.
Qed.

(** X6. A logical key never names the same dataset under two stages. Two
    constructions of one step type from the same [requires] and [provides]
    values whose [ml_stage] differ, at least one of them non-empty, bind
    the same logical keys, and bind each key to two different catalog
    names. (Two different keys may still meet: nothing is said across
    keys.) *)
Theorem different_stages_rebind_every_key cls a1 a2 s1 s2 :
  wf_args s1 a1 = true → tracking_ok a1 = true →
  wf_args s2 a2 = true → tracking_ok a2 = true →
  requires a1 ≫= dict_at s1 = requires a2 ≫= dict_at s2 →
  provides a1 ≫= dict_at s1 = provides a2 ≫= dict_at s2 →
  suffixing (ml_stage a1) = true ∨ suffixing (ml_stage a2) = true →
  ml_stage a1 ≠ ml_stage a2 →
  ∃ s1' s2' r1 r2 p1 p2,
    __init__ cls a1 s1 = (Return tt, s1') ∧
    __init__ cls a2 s2 = (Return tt, s2') ∧
    attr_dict s1' "requires" = Some r1 ∧ attr_dict s2' "requires" = Some r2 ∧
    attr_dict s1' "provides" = Some p1 ∧ attr_dict s2' "provides" = Some p2 ∧
    dom r1 = dom r2 ∧ dom p1 = dom p2 ∧
    (∀ k v1 v2, r1 !! k = Some v1 → r2 !! k = Some v2 → v1 ≠ v2) ∧
    (∀ k v1 v2, p1 !! k = Some v1 → p2 !! k = Some v2 → v1 ≠ v2).
Proof.
  intros W1 K1 W2 K2 Hr Hp Hor Hne.
  destruct (init_bindings cls a1 s1 W1 K1) as (s1' & E1 & R1 & P1 & _).
  destruct (init_bindings cls a2 s2 W2 K2) as (s2' & E2 & R2 & P2 & _).
  rewrite Hr in R1. rewrite Hp in P1.
  assert (∀ stage (d : gmap string string), dom (staged stage d) = dom d)
    as Hdom.
  { intros [st|] d; simpl; [destruct (truthy st)|]; try done.
    apply dom_fmap_L. }
  do 6 eexists. do 6 (split; [eassumption|]).
  rewrite !Hdom. do 2 (split; [done|]).
  split; intros k v1 v2; by apply staged_lookup_sep.
Qed.

(** ** Constructing from an instance's own bindings *)

Lemma chosen_stable defaults (og : option (gmap string string)) stage :
  (if bool_decide (staged stage (chosen defaults og) = ∅)
   then identity_dict defaults
   else staged stage (chosen defaults og))
  = staged stage (chosen defaults og).
Proof.
  case_bool_decide as He; [|done].
  rewrite He. apply staged_empty_inv in He. symmetry.
  unfold chosen in He. destruct og as [d|]; [|done].
  by case_bool_decide.
Qed.

(** A second construction whose [requires] and [provides] arguments are the
    objects stored by a first one. *)
Lemma second_construction cls a s a2 s2 lr lp :
  wf_args s a = true → tracking_ok a = true →
  me (snd (__init__ cls a s)) !! "requires" = Some (VRef lr) →
  me (snd (__init__ cls a s)) !! "provides" = Some (VRef lp) →
  heap s2 = heap (snd (__init__ cls a s)) →
  requires a2 = Some lr → provides a2 = Some lp →
  wf_args s2 a2 = true → tracking_ok a2 = true →
  ∃ s2',
    __init__ cls a2 s2 = (Return tt, s2') ∧
    attr_dict (snd (__init__ cls a s)) "requires" =
      Some (staged (ml_stage a)
              (chosen (default_requires cls) (requires a ≫= dict_at s))) ∧
    attr_dict (snd (__init__ cls a s)) "provides" =
      Some (staged (ml_stage a)
              (chosen (default_provides cls) (provides a ≫= dict_at s))) ∧
    attr_dict s2' "requires" =
      Some (staged (ml_stage a2)
              (staged (ml_stage a)
                 (chosen (default_requires cls) (requires a ≫= dict_at s)))) ∧
    attr_dict s2' "provides" =
      Some (staged (ml_stage a2)
              (staged (ml_stage a)
                 (chosen (default_provides cls) (provides a ≫= dict_at s)))).
Proof.
  intros W1 K1 Lr Lp Hh R2 P2 W2 K2.
  destruct (init_bindings cls a s W1 K1) as (s' & E & Dr & Dp & _).
  rewrite E in Lr, Lp, Hh |- *. simpl in Lr, Lp, Hh |- *.
  destruct (init_bindings cls a2 s2 W2 K2) as (s2' & E2 & Dr2 & Dp2 & _).
  exists s2'. split; [done|]. split; [done|]. split; [done|].
  unfold attr_dict in Dr, Dp. rewrite Lr in Dr. rewrite Lp in Dp.
  assert (∀ l, dict_at s2 l = dict_at s' l) as Hd.
  { intros l. unfold dict_at. by rewrite Hh. }
  rewrite R2 in Dr2. rewrite P2 in Dp2. simpl in Dr2, Dp2.
  rewrite Hd, Dr in Dr2. rewrite Hd, Dp in Dp2. simpl in Dr2, Dp2.
  by rewrite chosen_stable in Dr2, Dp2.
Qed.

(** X7. Round trip. A second step of the same type constructed from the
    [requires] and [provides] objects of an instance, with [ml_stage]
    [None] or empty, has the same [requires] and [provides] mappings as
    that instance: what binding resolution produced is a fixed point of
    it, also when the mappings are empty. *)
Theorem rebuilding_from_stored_bindings_changes_nothing
    cls a s a2 s2 lr lp :
  wf_args s a = true → tracking_ok a = true →
  me (snd (__init__ cls a s)) !! "requires" = Some (VRef lr) →
  me (snd (__init__ cls a s)) !! "provides" = Some (VRef lp) →
  heap s2 = heap (snd (__init__ cls a s)) →
  requires a2 = Some lr → provides a2 = Some lp →
  wf_args s2 a2 = true → tracking_ok a2 = true →
  suffixing (ml_stage a2) = false →
  ∃ s2',
    __init__ cls a2 s2 = (Return tt, s2') ∧
    is_Some (attr_dict s2' "requires") ∧
    is_Some (attr_dict s2' "provides") ∧
    attr_dict s2' "requires" = attr_dict (snd (__init__ cls a s)) "requires" ∧
    attr_dict s2' "provides" = attr_dict (snd (__init__ cls a s)) "provides".
Proof.
  intros W1 K1 Lr Lp Hh R2 P2 W2 K2 Hs.
  destruct (second_construction cls a s a2 s2 lr lp W1 K1 Lr Lp Hh R2 P2 W2 K2)
    as (s2' & E & A1 & A2 & A3 & A4).
  exists s2'. rewrite A1, A2, A3, A4, !(staged_false _ _ Hs). eauto 10.
Qed.

(** X8. Stage suffixes accumulate. A second step constructed, with stage
    [st2], from the [requires] and [provides] objects of an instance built
    with stage [st1] binds each key to the original name followed by
    ["_" ++ st1] and then ["_" ++ st2]: the constructor never recognises an
    already suffixed name. *)
Theorem restaging_appends_a_second_suffix
    cls a s a2 s2 lr lp st1 st2 :
  wf_args s a = true → tracking_ok a = true →
  me (snd (__init__ cls a s)) !! "requires" = Some (VRef lr) →
  me (snd (__init__ cls a s)) !! "provides" = Some (VRef lp) →
  heap s2 = heap (snd (__init__ cls a s)) →
  requires a2 = Some lr → provides a2 = Some lp →
  wf_args s2 a2 = true → tracking_ok a2 = true →
  ml_stage a = Some st1 → st1 ≠ "" →
  ml_stage a2 = Some st2 → st2 ≠ "" →
  ∃ s2' r p,
    __init__ cls a2 s2 = (Return tt, s2') ∧
    attr_dict s2' "requires" = Some r ∧
    attr_dict s2' "provides" = Some p ∧
    (∀ l d, requires a = Some l → dict_at s l = Some d → d ≠ ∅ →
       ∀ k, r !! k =
            (λ v, (v +:+ "_" +:+ st1) +:+ "_" +:+ st2) <$> d !! k) ∧
    (requires a = None ∨
       (∃ l, requires a = Some l ∧ dict_at s l = Some ∅) →
       ∀ k v, r !! k = Some v ↔
              k ∈ default_requires cls ∧
              v = (k +:+ "_" +:+ st1) +:+ "_" +:+ st2) ∧
    (∀ l d, provides a = Some l → dict_at s l = Some d → d ≠ ∅ →
       ∀ k, p !! k =
            (λ v, (v +:+ "_" +:+ st1) +:+ "_" +:+ st2) <$> d !! k) ∧
    (provides a = None ∨
       (∃ l, provides a = Some l ∧ dict_at s l = Some ∅) →
       ∀ k v, p !! k = Some v ↔
              k ∈ default_provides cls ∧
              v = (k +:+ "_" +:+ st1) +:+ "_" +:+ st2).
Proof.
  intros W1 K1 Lr Lp Hh R2 P2 W2 K2 S1 N1 S2 N2.
  destruct (second_construction cls a s a2 s2 lr lp W1 K1 Lr Lp Hh R2 P2 W2 K2)
    as (s2' & E & _ & _ & Dr & Dp).
  rewrite S1, S2 in Dr, Dp. simpl in Dr, Dp.
  rewrite (truthy_nonempty _ N1), (truthy_nonempty _ N2) in Dr, Dp.
  assert (∀ (d : gmap string string) k,
            suffixed st2 (suffixed st1 d) !! k =
            (λ v, (v +:+ "_" +:+ st1) +:+ "_" +:+ st2) <$> d !! k) as Hex.
  { intros d k. rewrite !suffixed_lookup. by destruct (d !! k). }
  assert (∀ names k v,
            suffixed st2 (suffixed st1 (identity_dict names)) !! k = Some v ↔
            k ∈ names ∧ v = (k +:+ "_" +:+ st1) +:+ "_" +:+ st2) as Hdf.
  { intros names k v. rewrite suffixed_lookup, fmap_Some. split.
    - intros (x & Hx%suffixed_identity_lookup & ->). by destruct Hx as [? ->].
    - intros [Hk ->]. eexists. split; [|done].
      by apply suffixed_identity_lookup. }
  do 3 eexists. split; [exact E|]. split; [exact Dr|]. split; [exact Dp|].
  split; [|split; [|split]].
  - intros l d -> Hd Hd0 k. simpl. rewrite Hd. simpl.
    rewrite bool_decide_eq_false_2 by done. apply Hex.
  - intros [->|(l & -> & Hd)] k v; simpl; [|rewrite Hd; simpl]; apply Hdf.
  - intros l d -> Hd Hd0 k. simpl. rewrite Hd. simpl.
    rewrite bool_decide_eq_false_2 by done. apply Hex.
  - intros [->|(l & -> & Hd)] k v; simpl; [|rewrite Hd; simpl]; apply Hdf.
Qed.

(** ** Default lists *)

Lemma identity_dict_set names1 names2 :
  list_to_set names1 =@{gset string} list_to_set names2 →
  identity_dict names1 = identity_dict names2.
Proof.
  intros H. apply map_eq. intros k.
  assert (k ∈ names1 ↔ k ∈ names2) as Hk.
  { by rewrite <- !(elem_of_list_to_set (C:=gset string)), H. }
  destruct (identity_dict names1 !! k) as [v|] eqn:E1.
  - apply identity_dict_lookup in E1 as [? ->]. symmetry.
    apply identity_dict_lookup. tauto.
  - destruct (identity_dict names2 !! k) as [v|] eqn:E2; [|done].
    apply identity_dict_lookup in E2 as [? ->].
    assert (identity_dict names1 !! k = Some k) as E.
    { apply identity_dict_lookup. tauto. }
    congruence.
Qed.

(** X9. Only the set of names in [default_requires] and [default_provides]
    matters: two step types whose default lists hold the same names, in
    any order and with any repetitions, are constructed alike, with the
    same outcome and the same final state for every call, dictionaries
    being compared as mappings (Python's [==], which ignores insertion
    order). *)
Theorem default_lists_matter_only_as_sets cls1 cls2 a s :
  list_to_set (default_requires cls1)
    =@{gset string} list_to_set (default_requires cls2) →
  list_to_set (default_provides cls1)
    =@{gset string} list_to_set (default_provides cls2) →
  __init__ cls1 a s = __init__ cls2 a s.
Proof.
  intros Hr%identity_dict_set Hp%identity_dict_set.
  unfold __init__. by rewrite Hr, Hp.
Qed.

(** ** The error of the base method *)

(** X11. The error of the base [execute] tells class names apart: run on
    instances of two classes whose [__name__] differ, it raises two
    different exceptions. *)
Theorem execute_errors_differ_with_the_class_name cls1 cls2 s1 s2 :
  __name__ cls1 ≠ __name__ cls2 →
  fst (execute cls1 s1) ≠ fst (execute cls2 s2).
Proof.
  intros Hne. rewrite !execute_raises. unfold fst. intros [= H].
  apply Hne.
  apply (string_app_inj_r
           "` is a subclass of WorkflowStep andit must implement the `execute` method").
  exact H.
Qed.

End Correctness.

(** The scenarios of the specification. *)
Example scenario_val_defaults :
  let s' := snd (__init__ CleanStep
                   (mkArgs "catalog" tt None None None (Some "val")
                           None None None None None) caller) in
  attr_dict s' "requires" = Some {["meter_data" := "meter_data_val"]} ∧
  attr_dict s' "provides" = Some {["clean_data" := "clean_data_val"]}.
Proof. split; reflexivity. Qed.

Example scenario_explicit_requires :
  attr_dict (snd (__init__ CleanStep tracked_call caller)) "requires"
    = Some {["raw" := "sensor_feed"]}.
Proof. reflexivity. Qed.

(** C1, counterexample. [requires={}] is an explicit mapping without keys,
    yet the stored [requires] has the key of [default_requires]. *)
Lemma explicit_empty_requires_takes_defaults :
  requires empty_override_call = Some 1 ∧
  dict_at caller 1 = Some ∅ ∧
  default_requires CleanStep = ["meter_data"] ∧
  fst (__init__ CleanStep empty_override_call caller) = Return tt ∧
  attr_dict (snd (__init__ CleanStep empty_override_call caller)) "requires"
    = Some {["meter_data" := "meter_data"]} ∧
  dom ({["meter_data" := "meter_data"]} : gmap string string)
    ≠ dom (∅ : gmap string string).
Proof.
  do 5 (split; [reflexivity|]).
  rewrite dom_singleton_L, dom_empty_L. set_solver.
Qed.

(** C4, counterexample. The exception raised for a [run_id] without a
    [tracking_uri] is a [ValueError]; it is of no [ConfigurationError]
    kind. *)
Lemma invalid_configuration_error_is_a_ValueError :
  run_id untracked_run_call = Some "" ∧
  tracking_uri untracked_run_call = None ∧
  fst (__init__ CleanStep untracked_run_call caller) =
    Raise (ValueError
             "If tracking is enabled, a `tracking_uri` must be provided") ∧
  "ConfigurationError" ∉
    exn_classes
      (ValueError "If tracking is enabled, a `tracking_uri` must be provided").
Proof.
  do 3 (split; [reflexivity|]). simpl.
  rewrite !not_elem_of_cons. repeat split; try discriminate.
  apply not_elem_of_nil.
Qed.

(** C5, counterexample. [CleanStep] does not override [execute]:
    constructing it and calling [execute] raises [TypeError] at the
    construction and leaves the state as it was; no [NotImplementedError]
    is raised. *)
Lemma step_without_execute_is_never_executed :
  own_execute CleanStep = None ∧
  construct_and_execute delegate cpython_message CleanStep plain_call caller =
    (Raise (TypeError (cpython_message "CleanStep")), caller) ∧
  "NotImplementedError" ∉ exn_classes (TypeError (cpython_message "CleanStep")).
Proof.
  do 2 (split; [reflexivity|]). simpl.
  rewrite !not_elem_of_cons. repeat split; try discriminate.
  apply not_elem_of_nil.
Qed.

(** ** The theorems at concrete calls *)

Lemma defaults_give_identity_mappings_witness :
  ∃ s' r p,
    __init__ CleanStep plain_call caller = (Return tt, s') ∧
    attr_dict s' "requires" = Some r ∧
    attr_dict s' "provides" = Some p ∧
    (∀ k v, r !! k = Some v ↔ k ∈ ["meter_data"] ∧ v = k) ∧
    (∀ k v, p !! k = Some v ↔ k ∈ ["clean_data"] ∧ v = k).
Proof.
  apply (defaults_give_identity_mappings CleanStep plain_call caller);
    reflexivity.
Defined.

Lemma stage_suffixes_values_only_witness :
  ∃ s' r p,
    __init__ CleanStep val_call caller = (Return tt, s') ∧
    attr_dict s' "requires" = Some r ∧
    attr_dict s' "provides" = Some p ∧
    (∀ l d, requires val_call = Some l → dict_at caller l = Some d → d ≠ ∅ →
       dom r = dom d ∧
       ∀ k, r !! k = (λ v, v +:+ "_" +:+ "val") <$> d !! k) ∧
    (requires val_call = None ∨
       (∃ l, requires val_call = Some l ∧ dict_at caller l = Some ∅) →
       ∀ k v, r !! k = Some v ↔
              k ∈ default_requires CleanStep ∧ v = k +:+ "_" +:+ "val") ∧
    (∀ l d, provides val_call = Some l → dict_at caller l = Some d → d ≠ ∅ →
       dom p = dom d ∧
       ∀ k, p !! k = (λ v, v +:+ "_" +:+ "val") <$> d !! k) ∧
    (provides val_call = None ∨
       (∃ l, provides val_call = Some l ∧ dict_at caller l = Some ∅) →
       ∀ k v, p !! k = Some v ↔
              k ∈ default_provides CleanStep ∧ v = k +:+ "_" +:+ "val").
Proof.
  apply (stage_suffixes_values_only CleanStep val_call caller "val");
    [reflexivity | reflexivity | reflexivity | discriminate].
Defined.

Lemma explicit_nonempty_mapping_keeps_its_keys_witness :
  ∃ s' r p,
    __init__ CleanStep empty_stage_call caller = (Return tt, s') ∧
    attr_dict s' "requires" = Some r ∧
    attr_dict s' "provides" = Some p ∧
    (∀ l d, requires empty_stage_call = Some l → dict_at caller l = Some d →
       d ≠ ∅ → dom r = dom d) ∧
    (∀ l, requires empty_stage_call = Some l → dict_at caller l = Some ∅ →
       dom r = list_to_set (default_requires CleanStep)) ∧
    (∀ l d, provides empty_stage_call = Some l → dict_at caller l = Some d →
       d ≠ ∅ → dom p = dom d) ∧
    (∀ l, provides empty_stage_call = Some l → dict_at caller l = Some ∅ →
       dom p = list_to_set (default_provides CleanStep)).
Proof.
  apply (explicit_nonempty_mapping_keeps_its_keys
           CleanStep empty_stage_call caller); reflexivity.
Defined.

Lemma empty_stage_adds_no_suffix_witness :
  ∃ s' r p,
    __init__ CleanStep empty_stage_call caller = (Return tt, s') ∧
    me s' !! "ml_stage" = Some (VStr "") ∧
    attr_dict s' "requires" = Some r ∧
    attr_dict s' "provides" = Some p ∧
    (∀ l d, requires empty_stage_call = Some l → dict_at caller l = Some d →
       d ≠ ∅ → r = d ∧ me s' !! "requires" = Some (VRef l)) ∧
    (requires empty_stage_call = None ∨
       (∃ l, requires empty_stage_call = Some l ∧
             dict_at caller l = Some ∅) →
       ∀ k v, r !! k = Some v ↔ k ∈ default_requires CleanStep ∧ v = k) ∧
    (∀ l d, provides empty_stage_call = Some l → dict_at caller l = Some d →
       d ≠ ∅ → p = d ∧ me s' !! "provides" = Some (VRef l)) ∧
    (provides empty_stage_call = None ∨
       (∃ l, provides empty_stage_call = Some l ∧
             dict_at caller l = Some ∅) →
       ∀ k v, p !! k = Some v ↔ k ∈ default_provides CleanStep ∧ v = k).
Proof.
  apply (empty_stage_adds_no_suffix CleanStep empty_stage_call caller);
    reflexivity.
Defined.

Lemma tracking_validation_witness :
  let out := fst (__init__ CleanStep untracked_run_call caller) in
  (is_Some (run_id untracked_run_call) ∧
   tracking_uri untracked_run_call = None →
     out = Raise (ValueError
             "If tracking is enabled, a `tracking_uri` must be provided")) ∧
  (is_Some (run_id untracked_run_call) ∧
   is_Some (tracking_uri untracked_run_call) → out = Return tt) ∧
  (run_id untracked_run_call = None ∧
   tracking_uri untracked_run_call = None → out = Return tt) ∧
  (run_id untracked_run_call = None ∧
   is_Some (tracking_uri untracked_run_call) → out = Return tt) ∧
  ((∃ e, out = Raise e) ↔
   is_Some (run_id untracked_run_call) ∧
   tracking_uri untracked_run_call = None).
Proof.
  apply (tracking_validation CleanStep untracked_run_call caller).
  reflexivity.
Defined.

Lemma empty_run_id_needs_tracking_uri_witness :
  ∃ s', __init__ CleanStep untracked_run_call caller =
          (Raise (ValueError
             "If tracking is enabled, a `tracking_uri` must be provided"),
           s').
Proof.
  apply (empty_run_id_needs_tracking_uri CleanStep untracked_run_call caller);
    reflexivity.
Defined.

Lemma failed_construction_sets_no_attribute_witness :
  ∃ s', __init__ CleanStep untracked_run_call caller =
          (Raise (ValueError
             "If tracking is enabled, a `tracking_uri` must be provided"),
           s') ∧
        me s' = me caller ∧
        (me caller = ∅ →
         Forall (λ k, me s' !! k = None)
           ["catalog"; "parameters"; "name"; "requires"; "provides";
            "ml_stage"; "rebind"; "run_id"; "tracking_uri";
            "experiment_name"; "tags"]).
Proof.
  apply (failed_construction_sets_no_attribute
           CleanStep untracked_run_call caller);
    [reflexivity | by eexists | reflexivity].
Defined.

Lemma optional_arguments_default_only_when_absent_witness :
  ∃ s',
    __init__ CleanStep tracked_call caller = (Return tt, s') ∧
    (rebind tracked_call = None → attr_dict s' "rebind" = Some ∅) ∧
    (∀ l d, rebind tracked_call = Some l → dict_at caller l = Some d →
       me s' !! "rebind" = Some (VRef l) ∧ dict_at s' l = Some d) ∧
    (tags tracked_call = None → attr_tags s' "tags" = Some ∅) ∧
    (∀ l d, tags tracked_call = Some l → tags_at caller l = Some d →
       me s' !! "tags" = Some (VRef l) ∧ tags_at s' l = Some d) ∧
    (experiment_name tracked_call = None →
       me s' !! "experiment_name" = Some (VStr "Default")) ∧
    (∀ e, experiment_name tracked_call = Some e →
       me s' !! "experiment_name" = Some (VStr e)).
Proof.
  apply (optional_arguments_default_only_when_absent
           CleanStep tracked_call caller); reflexivity.
Defined.


Lemma execute_raises_only_by_delegation_witness :
  (own_execute DelegatingStep = None →
     construct_and_execute delegate cpython_message DelegatingStep
       plain_call caller =
       (Raise (TypeError (cpython_message "DelegatingStep")), caller)) ∧
  (∀ body,
     own_execute DelegatingStep = Some body →
     (∀ base s0, delegate body base s0 = base s0) →
     ∃ s',
       __init__ DelegatingStep plain_call caller = (Return tt, s') ∧
       construct_and_execute delegate cpython_message DelegatingStep
         plain_call caller =
         (Raise (NotImplementedError
            "`DelegatingStep` is a subclass of WorkflowStep andit must implement the `execute` method"),
          s')).
Proof.
  apply (execute_raises_only_by_delegation delegate cpython_message
           DelegatingStep plain_call caller); reflexivity.
Defined.

Lemma construction_is_pure_witness :
  ∃ out s1' s2',
    __init__ CleanStep tracked_call caller = (out, s1') ∧
    __init__ CleanStep tracked_call' caller' = (out, s2') ∧
    attributes s1' = attributes s2' ∧
    log s1' = log caller ∧ log s2' = log caller' ∧
    (∀ l o, heap caller !! l = Some o → heap s1' !! l = Some o) ∧
    (∀ l o, heap caller' !! l = Some o → heap s2' !! l = Some o).
Proof.
  apply (construction_is_pure CleanStep tracked_call tracked_call'
           caller caller'); try reflexivity.
  repeat split; reflexivity.
Defined.

(** ** The further properties at concrete calls *)

Lemma constructor_assigns_exactly_its_attributes_witness :
  ∃ s',
    __init__ CleanStep tracked_call caller = (Return tt, s') ∧
    me s' !! "catalog" = Some (VCatalog "catalog") ∧
    me s' !! "parameters" = Some (VConfig tt) ∧
    me s' !! "name" = Some (VStr "clean") ∧
    me s' !! "run_id" = Some (VStr "abc") ∧
    me s' !! "tracking_uri" = Some (VStr "http://localhost:5000") ∧
    dom (me s') = dom (me caller) ∪ list_to_set attribute_names ∧
    (∀ k, k ∉ attribute_names → me s' !! k = me caller !! k).
Proof.
  apply (constructor_assigns_exactly_its_attributes
           CleanStep tracked_call caller); reflexivity.
Defined.

Lemma supplied_dictionaries_are_stored_not_copied_witness :
  __init__ CleanStep full_call caller =
    (Return tt,
     mkState (heap caller) (stored full_call 0 3 3 "Default" 2 (me caller))
             (log caller)).
Proof.
  apply (supplied_dictionaries_are_stored_not_copied
           CleanStep full_call caller 0 3 3 2
           {["raw" := "sensor_feed"]} {["ts" := "timestamp"]});
    try reflexivity; apply map_non_empty_singleton.
Defined.



Lemma attributes_share_only_what_the_caller_shared_witness :
  ∃ s' lr lp lb,
    __init__ CleanStep full_call caller = (Return tt, s') ∧
    me s' !! "requires" = Some (VRef lr) ∧
    me s' !! "provides" = Some (VRef lp) ∧
    me s' !! "rebind" = Some (VRef lb) ∧
    (lr = lp → requires full_call = Some lr ∧ provides full_call = Some lp) ∧
    (lr = lb → requires full_call = Some lr ∧ rebind full_call = Some lb) ∧
    (lp = lb → provides full_call = Some lp ∧ rebind full_call = Some lb).
Proof.
  apply (attributes_share_only_what_the_caller_shared
           CleanStep full_call caller); reflexivity.
Defined.

Lemma distinct_datasets_stay_distinct_witness :
  ∃ s' r p,
    __init__ CleanStep val_call caller = (Return tt, s') ∧
    attr_dict s' "requires" = Some r ∧
    attr_dict s' "provides" = Some p ∧
    (∀ l d, requires val_call = Some l → dict_at caller l = Some d → d ≠ ∅ →
       ∀ k1 k2, r !! k1 = r !! k2 ↔ d !! k1 = d !! k2) ∧
    (requires val_call = None ∨
       (∃ l, requires val_call = Some l ∧ dict_at caller l = Some ∅) →
       ∀ k1 k2 v, r !! k1 = Some v → r !! k2 = Some v → k1 = k2) ∧
    (∀ l d, provides val_call = Some l → dict_at caller l = Some d → d ≠ ∅ →
       ∀ k1 k2, p !! k1 = p !! k2 ↔ d !! k1 = d !! k2) ∧
    (provides val_call = None ∨
       (∃ l, provides val_call = Some l ∧ dict_at caller l = Some ∅) →
       ∀ k1 k2 v, p !! k1 = Some v → p !! k2 = Some v → k1 = k2).
Proof.
  apply (distinct_datasets_stay_distinct CleanStep val_call caller);
    reflexivity.
Defined.

Lemma different_stages_rebind_every_key_witness :
  ∃ s1' s2' r1 r2 p1 p2,
    __init__ CleanStep val_call caller = (Return tt, s1') ∧
    __init__ CleanStep test_call caller = (Return tt, s2') ∧
    attr_dict s1' "requires" = Some r1 ∧ attr_dict s2' "requires" = Some r2 ∧
    attr_dict s1' "provides" = Some p1 ∧ attr_dict s2' "provides" = Some p2 ∧
    dom r1 = dom r2 ∧ dom p1 = dom p2 ∧
    (∀ k v1 v2, r1 !! k = Some v1 → r2 !! k = Some v2 → v1 ≠ v2) ∧
    (∀ k v1 v2, p1 !! k = Some v1 → p2 !! k = Some v2 → v1 ≠ v2).
Proof.
  apply (different_stages_rebind_every_key
           CleanStep val_call test_call caller caller);
    try reflexivity; [by left | discriminate].
Defined.

Lemma rebuilding_from_stored_bindings_changes_nothing_witness :
  ∃ s2',
    __init__ CleanStep rebuild_call after_val_call = (Return tt, s2') ∧
    is_Some (attr_dict s2' "requires") ∧
    is_Some (attr_dict s2' "provides") ∧
    attr_dict s2' "requires" =
      attr_dict (snd (__init__ CleanStep val_call caller)) "requires" ∧
    attr_dict s2' "provides" =
      attr_dict (snd (__init__ CleanStep val_call caller)) "provides".
Proof.
  apply (rebuilding_from_stored_bindings_changes_nothing
           CleanStep val_call caller rebuild_call after_val_call 4 6);
    reflexivity.
Defined.

Lemma restaging_appends_a_second_suffix_witness :
  ∃ s2' r p,
    __init__ CleanStep restage_call after_val_call = (Return tt, s2') ∧
    attr_dict s2' "requires" = Some r ∧
    attr_dict s2' "provides" = Some p ∧
    (∀ l d, requires val_call = Some l → dict_at caller l = Some d → d ≠ ∅ →
       ∀ k, r !! k =
            (λ v, (v +:+ "_" +:+ "val") +:+ "_" +:+ "test") <$> d !! k) ∧
    (requires val_call = None ∨
       (∃ l, requires val_call = Some l ∧ dict_at caller l = Some ∅) →
       ∀ k v, r !! k = Some v ↔
              k ∈ default_requires CleanStep ∧
              v = (k +:+ "_" +:+ "val") +:+ "_" +:+ "test") ∧
    (∀ l d, provides val_call = Some l → dict_at caller l = Some d → d ≠ ∅ →
       ∀ k, p !! k =
            (λ v, (v +:+ "_" +:+ "val") +:+ "_" +:+ "test") <$> d !! k) ∧
    (provides val_call = None ∨
       (∃ l, provides val_call = Some l ∧ dict_at caller l = Some ∅) →
       ∀ k v, p !! k = Some v ↔
              k ∈ default_provides CleanStep ∧
              v = (k +:+ "_" +:+ "val") +:+ "_" +:+ "test").
Proof.
  apply (restaging_appends_a_second_suffix
           CleanStep val_call caller restage_call after_val_call 4 6
           "val" "test"); try reflexivity; discriminate.
Defined.

Lemma default_lists_matter_only_as_sets_witness :
  __init__ JoinStep plain_call caller = __init__ JoinStep' plain_call caller.
Proof.
  apply (default_lists_matter_only_as_sets JoinStep JoinStep'
           plain_call caller); reflexivity.
Defined.


Lemma execute_errors_differ_with_the_class_name_witness :
  fst (execute CleanStep caller) ≠ fst (execute JoinStep caller').
Proof.
  apply (execute_errors_differ_with_the_class_name
           CleanStep JoinStep caller caller').
  discriminate.
Defined.

(** What the restaged instance of the examples holds. *)
Example restaged_requires :
  attr_dict (snd (__init__ CleanStep restage_call after_val_call)) "requires"
    = Some {["raw" := "sensor_feed_val_test"]}.
Proof. reflexivity. Qed.
